(** * CSV validator: the JavaScript fallback processor [CsvProcessorJS]

    A shallow embedding of the class [CsvProcessorJS] of
    [www/src/App.jsx] (constructor, [get_error_summary],
    [apply_bulk_fix], [generate_split_export], [count_total_errors]) and
    of the JavaScript built-ins it calls ([String.prototype.trim],
    [split], [Array.prototype.join], [indexOf], [includes], [parseFloat],
    [isNaN]), followed by the properties of the validation engine that
    the specification states about it.

    Conventions of the embedding:
    - a JavaScript string is a [string]; a character is one code unit
      (the development covers code units below 256);
    - a JavaScript number is a binary64 value, [spec_float] with
      [prec = 53] and [emax = 1024];
    - an object used as a dictionary ([ruleMap], [stats], [examples]) is
      a [gmap] on its own string keys. Such a map is the object itself
      as long as no key is read or written that [Object.prototype]
      answers for ([inherited_names]) and no rule entry is named
      [__proto__]; [plain_names] says so of a table, [pass_throws] and
      [ruleMap_read] say what the code does with the other names, in a
      realm whose [Object.prototype] has its standard properties only;
    - the value of [JSON.parse(rulesJson)] is given: a syntax error, a
      value that is no rule array, or the rule array of the wire
      format. *)

From Stdlib Require Import ZArith Ascii String List.
From Stdlib Require Import Floats.SpecFloat.
From stdpp Require Import base option list strings gmap fin_maps.

Local Open Scope string_scope.

(** ** JavaScript strings *)

Module JsString.

(** [WhiteSpace] and [LineTerminator] code units below 256: TAB, LF, VT,
    FF, CR, SP and NBSP. *)
Definition is_ws (c : ascii) : bool :=
  let n := N_of_ascii c in
  ((9 <=? n)%N && (n <=? 13)%N) || (n =? 32)%N || (n =? 160)%N.

Fixpoint trimStart (s : string) : string :=
  match s with
  | EmptyString => EmptyString
  | String c r => if is_ws c then trimStart r else s
  end.

Fixpoint trimEnd (s : string) : string :=
  match s with
  | EmptyString => EmptyString
  | String c r =>
      match trimEnd r with
      | EmptyString => if is_ws c then EmptyString else String c EmptyString
      | r' => String c r'
      end
  end.

(** [s.trim()] *)
Definition trim (s : string) : string := trimEnd (trimStart s).

(** [s.split(sep)] for a one-character separator: never the empty
    array; the empty string gives the array of one empty string. *)
Fixpoint split (sep : ascii) (s : string) : list string :=
  match s with
  | EmptyString => [EmptyString]
  | String c r =>
      if Ascii.eqb c sep then EmptyString :: split sep r
      else match split sep r with
           | [] => [String c EmptyString]
           | w :: ws => String c w :: ws
           end
  end.

(** [l.join(sep)] *)
Fixpoint join (sep : ascii) (l : list string) : string :=
  match l with
  | [] => EmptyString
  | [x] => x
  | x :: xs => x +:+ String sep (join sep xs)
  end.

(** [/@/.test(s)] and the like: does the code unit occur in [s]? *)
Fixpoint contains (c : ascii) (s : string) : bool :=
  match s with
  | EmptyString => false
  | String d r => Ascii.eqb d c || contains c r
  end.

(** [l.indexOf(x)]: first index of [x], or -1. *)
Fixpoint indexOf (l : list string) (x : string) : Z :=
  match l with
  | [] => (-1)%Z
  | y :: ys =>
      if String.eqb y x then 0%Z
      else let i := indexOf ys x in
           if (i =? -1)%Z then (-1)%Z else (i + 1)%Z
  end.

(** [l.includes(x)] on an array of strings *)
Definition includes (l : list string) (x : string) : bool :=
  existsb (String.eqb x) l.

End JsString.

Import JsString.

Definition comma : ascii := ","%char.
Definition newline : ascii := ascii_of_nat 10.
Definition at_sign : ascii := "@"%char.

(** ** JavaScript numbers: [parseFloat], [isNaN], [<] and [>] *)

Module JsNumber.

Local Open Scope Z_scope.

(** A Number is a binary64 value. *)
Definition number : Type := spec_float.
Definition prec : Z := 53.
Definition emax : Z := 1024.

Definition NaN : number := S754_nan.

(** [isNaN(n)] on a Number *)
Definition isNaN (n : number) : bool :=
  match n with
  | S754_nan => true
  | _ => false
  end.

(** [a < b] and [a > b] on Numbers: false as soon as one side is NaN. *)
Definition lt (a b : number) : bool := SFltb a b.
Definition gt (a b : number) : bool := SFltb b a.

(** The Number nearest to [m * 10^e], ties to even; the sign is kept on
    zero. *)
Definition of_decimal (neg : bool) (m : N) (e : Z) : number :=
  let mz := if neg then - Z.of_N m else Z.of_N m in
  if 0 <=? e then binary_normalize prec emax (mz * 10 ^ e) 0 neg
  else
    match m with
    | N0 => S754_zero neg
    | Npos p =>
        SFdiv prec emax (S754_finite neg p 0)
                        (S754_finite false (Z.to_pos (10 ^ (- e))) 0)
    end.

(** The Number of an integer (a JSON integer literal, for instance). *)
Definition of_Z (z : Z) : number := binary_normalize prec emax z 0 false.

Definition digit_of (c : ascii) : option N :=
  let n := N_of_ascii c in
  if ((48 <=? n) && (n <=? 57))%N then Some (n - 48)%N else None.

(** The longest prefix of decimal digits, and what follows it. *)
Fixpoint take_digits (s : string) : list N * string :=
  match s with
  | EmptyString => ([], EmptyString)
  | String c r =>
      match digit_of c with
      | Some d => let '(ds, rest) := take_digits r in (d :: ds, rest)
      | None => ([], s)
      end
  end.

Definition digits_value (ds : list N) : N :=
  foldl (fun acc d => (10 * acc + d)%N) 0%N ds.

Fixpoint strip_prefix (p s : string) : option string :=
  match p, s with
  | EmptyString, _ => Some s
  | String a p', String b s' =>
      if Ascii.eqb a b then strip_prefix p' s' else None
  | String _ _, EmptyString => None
  end.

(** The mathematical value of a [StrUnsignedDecimalLiteral]. *)
Inductive literal : Type :=
  | LInfinity
  | LDecimal (m : N) (e : Z).

(** [ExponentPart], optional: the exponent and what follows it. An
    exponent indicator without digits is not part of the literal. *)
Definition exponent_part (s : string) : Z * string :=
  match s with
  | String c r =>
      if Ascii.eqb c "e"%char || Ascii.eqb c "E"%char then
        let '(sg, r') :=
          match r with
          | String "+"%char t => (1, t)
          | String "-"%char t => (-1, t)
          | _ => (1, r)
          end in
        match take_digits r' with
        | ([], _) => (0, s)
        | (ds, rest) => (sg * Z.of_N (digits_value ds), rest)
        end
      else (0, s)
  | EmptyString => (0, s)
  end.

Definition decimal_literal (ds : list N) (nfrac : nat) (rest : string)
  : literal * string :=
  let '(ex, rest') := exponent_part rest in
  (LDecimal (digits_value ds) (ex - Z.of_nat nfrac), rest').

(** The longest prefix that is a [StrUnsignedDecimalLiteral]:
    [Infinity], [digits . digits? exp?], [. digits exp?], [digits exp?]. *)
Definition parse_unsigned (s : string) : option (literal * string) :=
  match strip_prefix "Infinity" s with
  | Some rest => Some (LInfinity, rest)
  | None =>
      let '(ip, r1) := take_digits s in
      match r1 with
      | String "."%char r1' =>
          let '(fp, r2) := take_digits r1' in
          match ip, fp with
          | [], [] => None
          | _, _ => Some (decimal_literal (ip ++ fp) (length fp) r2)
          end
      | _ =>
          match ip with
          | [] => None
          | _ => Some (decimal_literal ip 0 r1)
          end
      end
  end.

(** The longest prefix that is a [StrDecimalLiteral]: sign, value, and
    the rest of the string. *)
Definition parse_literal (s : string) : option (bool * literal * string) :=
  match s with
  | String "+"%char r =>
      match parse_unsigned r with
      | Some (l, rest) => Some (false, l, rest)
      | None => None
      end
  | String "-"%char r =>
      match parse_unsigned r with
      | Some (l, rest) => Some (true, l, rest)
      | None => None
      end
  | _ =>
      match parse_unsigned s with
      | Some (l, rest) => Some (false, l, rest)
      | None => None
      end
  end.

(** [parseFloat(s)]: leading white space is skipped, the longest prefix
    that is a decimal literal is converted, the rest is ignored; NaN
    when there is no such prefix. *)
Definition parseFloat (s : string) : number :=
  match parse_literal (trimStart s) with
  | None => NaN
  | Some (neg, LInfinity, _) => S754_infinity neg
  | Some (neg, LDecimal m e, _) => of_decimal neg m e
  end.

End JsNumber.

Import JsNumber.

(** ** The rule specification, as [JSON.parse] returns it *)

(** One rule object of the wire format: the discriminator [type] and the
    fields [min], [max], [options], [pattern]. An absent [min], [max] or
    [pattern] is [undefined] ([None]). [options] is the array that the
    wire format gives every [oneof] rule; the other rules never read
    it. *)
Module Rule.
Record t : Type := mk
  { type : string;
    min : option number;
    max : option number;
    options : list string;
    pattern : option string }.
End Rule.

(** One element of the rule array: a column name and its rule chain. *)
Module Entry.
Record t : Type := mk
  { column : string;
    rules : list Rule.t }.
End Entry.

(** What [JSON.parse(rulesJson)] does: it throws; or it returns a value
    that is no array of entries and on which the constructor throws
    ([null] or a value without [forEach], for [this.rules.forEach]; an
    array that holds [null], for [r.column]); or it returns the rule
    array. *)
Inductive json : Type :=
  | JsonSyntaxError
  | JsonNotRules
  | JsonValue (rules : list Entry.t).

(** ** The class [CsvProcessorJS] *)

(** [this.rows] is not a field of the record: its elements are the very
    arrays [this.headers] and the elements of [this.records], so that it
    is [headers :: records] at any time (see [rows]). *)
Record CsvProcessorJS : Type := mkProcessor
  { headers : list string;
    records : list (list string);
    rules : list Entry.t;
    ruleMap : gmap string (list Rule.t) }.

Definition rows (this : CsvProcessorJS) : list (list string) :=
  headers this :: records this.

Inductive exception : Type :=
  | SyntaxError
  | TypeError.

(** [csvData.trim().split('\n').map(r => r.split(','))] *)
Definition parse_rows (csvData : string) : list (list string) :=
  map (split comma) (split newline (trim csvData)).

(** [this.rules.forEach(r => this.ruleMap[r.column] = r.rules)]: the own
    keys of [ruleMap]. An entry named [__proto__] is kept here under
    that key; in the code it replaces the prototype of [ruleMap]. *)
Definition build_ruleMap (rs : list Entry.t) : gmap string (list Rule.t) :=
  foldl (fun m r => <[Entry.column r := Entry.rules r]> m) ∅ rs.

(** The assignments of the constructor, with [rs] the value that
    [JSON.parse(rulesJson)] returned: [this.headers = this.rows[0]],
    [this.records = this.rows.slice(1)], [this.rules], [this.ruleMap]. *)
Definition processor_of (csvData : string) (rs : list Entry.t) : CsvProcessorJS :=
  let rows := parse_rows csvData in
  {| headers := default [] (rows !! 0%nat);
     records := drop 1 rows;
     rules := rs;
     ruleMap := build_ruleMap rs |}.

(** [new CsvProcessorJS(csvData, rulesJson)]: the object, or the
    exception that [JSON.parse] or the loop over [this.rules] throws. *)
Definition constructor (csvData : string) (rulesJson : json)
  : exception + CsvProcessorJS :=
  match rulesJson with
  | JsonSyntaxError => inl SyntaxError
  | JsonNotRules => inl TypeError
  | JsonValue rs => inr (processor_of csvData rs)
  end.

(** *** [get_error_summary] *)

Record summary : Type := mkSummary
  { stats : gmap string (gmap string nat);
    examples : gmap string (gmap string string);
    total_errors : nat }.

Definition empty_summary : summary :=
  {| stats := ∅; examples := ∅; total_errors := 0 |}.

(** The body of [rules.forEach] up to [if (errType)]: the value of
    [errType] for one rule and one cell, [None] for [null]. [!val] holds
    of the empty string only. *)
Definition errType (rule : Rule.t) (val : string) : option string :=
  if String.eqb (Rule.type rule) "notempty" && String.eqb val EmptyString
  then Some "Required"
  else if String.eqb (Rule.type rule) "number" then
    let n := parseFloat val in
    if isNaN n then Some "Not a Number"
    else if match Rule.min rule with
            | Some m => lt n m
            | None => false
            end then Some "Min Value"
    else if match Rule.max rule with
            | Some m => gt n m
            | None => false
            end then Some "Max Value"
    else None
  else if String.eqb (Rule.type rule) "email" && negb (contains at_sign val)
  then Some "Invalid Email"
  else if String.eqb (Rule.type rule) "oneof"
          && negb (includes (Rule.options rule) val)
  then Some "Invalid Option"
  else None.

(** The body of [if (errType) { ... }]. The test [!examples[colName][errType]]
    holds when the entry is missing and when it is the empty string.
    This is what the code does for a column name that [Object.prototype]
    does not answer for (see [plain_names]); for the other names
    [stats[colName]] is an inherited object and no own key is made. *)
Definition record_error (colName err val : string) (s : summary) : summary :=
  let st := default ∅ (stats s !! colName) in
  let st' := <[err := S (default 0 (st !! err))]> st in
  let ex := default ∅ (examples s !! colName) in
  let ex' := match ex !! err with
             | Some (String _ _) => ex
             | Some EmptyString | None => <[err := val]> ex
             end in
  {| stats := <[colName := st']> (stats s);
     examples := <[colName := ex']> (examples s);
     total_errors := S (total_errors s) |}.

Definition check_rule (colName val : string) (s : summary) (rule : Rule.t)
  : summary :=
  match errType rule val with
  | Some err => record_error colName err val s
  | None => s
  end.

(** [l.forEach((x, i) => ...)] with the index, as a state transformer. *)
Fixpoint forEach_from {A St : Type} (f : St -> A -> nat -> St)
    (l : list A) (i : nat) (s : St) : St :=
  match l with
  | [] => s
  | x :: xs => forEach_from f xs (S i) (f s x i)
  end.

(** [this.headers[colIdx]] used as a property key: [undefined] past the
    end, which as a key is the string "undefined". *)
Definition header_key (this : CsvProcessorJS) (colIdx : nat) : string :=
  default "undefined" (headers this !! colIdx).

(** The body of [row.forEach((val, colIdx) => ...)], when it returns: a
    column name that reads as an inherited value makes [rules.forEach]
    throw instead, see [reads_inherited] and [pass_throws]. *)
Definition check_cell (this : CsvProcessorJS) (s : summary) (val : string)
    (colIdx : nat) : summary :=
  let colName := header_key this colIdx in
  match ruleMap this !! colName with
  | None => s
  | Some rules => foldl (check_rule colName val) s rules
  end.

Definition check_row (this : CsvProcessorJS) (s : summary)
    (row : list string) : summary :=
  forEach_from (check_cell this) row 0 s.

Definition get_error_summary (this : CsvProcessorJS) : summary :=
  foldl (check_row this) empty_summary (records this).

Definition count_total_errors (this : CsvProcessorJS) : nat :=
  total_errors (get_error_summary this).

(** *** [apply_bulk_fix] *)

(** [if (row[colIdx] === findVal) row[colIdx] = replaceVal]: past the
    end of the row the cell is [undefined], and nothing is written. *)
Definition fix_row (colIdx : nat) (findVal replaceVal : string)
    (row : list string) : list string :=
  if decide (row !! colIdx = Some findVal)
  then <[colIdx := replaceVal]> row
  else row.

(** The object after the call, and the count that it returns when
    [count_total_errors] returns; [apply_bulk_fix_result] is the call
    with the exception. *)
Definition apply_bulk_fix (this : CsvProcessorJS)
    (colName findVal replaceVal : string) : CsvProcessorJS * nat :=
  let colIdx := indexOf (headers this) colName in
  if (colIdx =? -1)%Z then (this, count_total_errors this)
  else
    let this' :=
      {| headers := headers this;
         records := map (fix_row (Z.to_nat colIdx) findVal replaceVal)
                        (records this);
         rules := rules this; ruleMap := ruleMap this |} in
    (this', count_total_errors this').

(** *** [generate_split_export] *)

Record split_export : Type := mkExport
  { valid : string;
    invalid : string }.

(** The two arrays of lines before they are joined. *)
Definition valid_lines (this : CsvProcessorJS) : list string :=
  [join comma (headers this)] ++ map (join comma) (records this).

Definition invalid_lines (this : CsvProcessorJS) : list string :=
  [join comma (headers this) +:+ ",Error_Reason"].

Definition generate_split_export (this : CsvProcessorJS) : split_export :=
  {| valid := join newline (valid_lines this);
     invalid := join newline (invalid_lines this) |}.

(** *** Names that a plain object answers for *)

(** The property names of [Object.prototype]: a plain object answers a
    read of any of them that is not one of its own keys with an
    inherited function or object, which is truthy and has no
    [forEach]. *)
Definition inherited_names : list string :=
  [ "constructor"; "__defineGetter__"; "__defineSetter__"; "hasOwnProperty";
    "__lookupGetter__"; "__lookupSetter__"; "isPrototypeOf";
    "propertyIsEnumerable"; "toString"; "valueOf"; "__proto__";
    "toLocaleString" ].

(** What the code finds when it reads [this.ruleMap[colName]], for a
    rule array without an entry named [__proto__]: the chain of an own
    key, an inherited value, or [undefined]. *)
Inductive ruleMap_value : Type :=
  | Chain (rules : list Rule.t)
  | InheritedValue
  | Undefined.

Definition ruleMap_read (m : gmap string (list Rule.t)) (colName : string)
  : ruleMap_value :=
  match m !! colName with
  | Some rules => Chain rules
  | None =>
      if bool_decide (colName ∈ inherited_names) then InheritedValue
      else Undefined
  end.

(** The pass reaches a cell whose column name reads as an inherited
    value: [if (!rules) return] lets it through and [rules.forEach]
    throws [TypeError]. As [ruleMap_read], this is the code for a rule
    array without an entry named [__proto__]. *)
Definition reads_inherited (this : CsvProcessorJS) (colIdx : nat) : bool :=
  match ruleMap_read (ruleMap this) (header_key this colIdx) with
  | InheritedValue => true
  | Chain _ | Undefined => false
  end.

Definition pass_throws (this : CsvProcessorJS) : bool :=
  existsb (fun row => existsb (reads_inherited this) (seq 0 (length row)))
          (records this).

(** [count_total_errors()] as a call: the exception, or the count. *)
Definition count_total_errors_result (this : CsvProcessorJS)
  : exception + nat :=
  if pass_throws this then inl TypeError else inr (count_total_errors this).

(** [apply_bulk_fix(colName, findVal, replaceVal)] as a call: the cells
    are written first, then [count_total_errors] returns or throws. *)
Definition apply_bulk_fix_result (this : CsvProcessorJS)
    (colName findVal replaceVal : string)
  : CsvProcessorJS * (exception + nat) :=
  let this' := (apply_bulk_fix this colName findVal replaceVal).1 in
  (this', count_total_errors_result this').

(** A table on which the dictionaries of the class are plain maps: no
    header is a name that [Object.prototype] answers for, and no rule
    entry is named [__proto__] (the assignment would replace the
    prototype of [ruleMap]). *)
Definition plain_names (this : CsvProcessorJS) : Prop :=
  Forall (fun h => h ∉ inherited_names) (headers this)
  /\ ruleMap this !! "__proto__" = None.

(** ** Vocabulary of the statements *)

(** The error kinds, under the keys that [get_error_summary] gives them. *)
Definition Required : string := "Required".
Definition NotANumber : string := "Not a Number".
Definition MinValue : string := "Min Value".
Definition MaxValue : string := "Max Value".
Definition InvalidEmail : string := "Invalid Email".
Definition InvalidOption : string := "Invalid Option".

(** The sum of all counts of [stats]: over the kinds of a column, then
    over the columns. *)
Definition weighted_sum {A : Type} (g : A -> nat) (m : gmap string A) : nat :=
  map_fold (fun _ a acc => g a + acc) 0 m.

Definition sum_kinds (m : gmap string nat) : nat :=
  weighted_sum (fun n => n) m.

Definition sum_counts (st : gmap string (gmap string nat)) : nat :=
  weighted_sum sum_kinds st.

(** The count and the example of one (column, kind) pair. *)
Definition count_of (s : summary) (col kind : string) : nat :=
  default 0 (stats s !! col ≫= fun m => m !! kind).

Definition example_of (s : summary) (col kind : string) : option string :=
  examples s !! col ≫= fun m => m !! kind.

(** The cell of record [i] and column index [j], if there is one. *)
Definition cell (this : CsvProcessorJS) (i j : nat) : option string :=
  records this !! i ≫= fun row => row !! j.

(** A record triggers an error kind under the rules of [this]: the pass
    over that record alone counts an error. *)
Definition triggers (this : CsvProcessorJS) (row : list string) : bool :=
  (0 <? total_errors (check_row this empty_summary row))%nat.

(** The same processor with the rules of type [regex] taken out of every
    chain. *)
Definition is_regex (r : Rule.t) : bool := String.eqb (Rule.type r) "regex".

Definition without_regex (this : CsvProcessorJS) : CsvProcessorJS :=
  {| headers := headers this; records := records this; rules := rules this;
     ruleMap := filter (fun r => is_regex r = false) <$> ruleMap this |}.

(** One recorded violation: column name, error kind, raw value. *)
Definition violation : Type := string * string * string.

Definition record_violation (s : summary) (x : violation) : summary :=
  let '(colName, err, val) := x in record_error colName err val s.

(** The violations of one cell, in the order of the rules of its chain:
    one for each rule whose [errType] is not [null]. *)
Definition cell_violations (this : CsvProcessorJS) (val : string)
    (colIdx : nat) : list violation :=
  let colName := header_key this colIdx in
  match ruleMap this !! colName with
  | None => []
  | Some rules =>
      omap (fun r => (fun err => (colName, err, val)) <$> errType r val) rules
  end.

Fixpoint row_violations_from (this : CsvProcessorJS) (row : list string)
    (i : nat) : list violation :=
  match row with
  | [] => []
  | val :: rest =>
      cell_violations this val i ++ row_violations_from this rest (S i)
  end.

(** The violations of the whole table: records in order, cells in
    order, rules in order. *)
Definition violations (this : CsvProcessorJS) : list violation :=
  flat_map (fun row => row_violations_from this row 0) (records this).

Definition matches (col kind : string) (x : violation) : bool :=
  String.eqb (fst (fst x)) col && String.eqb (snd (fst x)) kind.

(** The number of violations of one (column, kind) pair. *)
Definition count_matching (col kind : string) (l : list violation) : nat :=
  length (List.filter (matches col kind) l).

(** What one more violation of a pair does to the example of that pair:
    an example that is a non-empty string is kept, anything else is
    replaced. *)
Definition keep_or_set (cur : option string) (v : string) : option string :=
  match cur with
  | Some (String _ _) => cur
  | Some EmptyString | None => Some v
  end.

Definition next_example (col kind : string) (cur : option string)
    (x : violation) : option string :=
  if matches col kind x then keep_or_set cur (snd x) else cur.

(** A string that is empty or starts with a character that is not white
    space. *)
Definition starts_clean (s : string) : Prop :=
  match s with
  | EmptyString => True
  | String c _ => is_ws c = false
  end.

(** *** What the specification asks of a field *)

(** [NotEmpty]: the field, after trimming, is non-empty. *)
Definition spec_not_empty (v : string) : bool :=
  negb (String.eqb (trim v) EmptyString).

(** [Email]: exactly one at-sign, with a non-empty part before it and a
    non-empty part after it. *)
Definition spec_email (v : string) : bool :=
  match split at_sign v with
  | [l; d] => negb (String.eqb l EmptyString) && negb (String.eqb d EmptyString)
  | _ => false
  end.

(** [NumberRange]: the field in its entirety is a decimal literal of a
    finite number. *)
Definition spec_finite_number (v : string) : bool :=
  match parse_literal v with
  | Some (neg, LDecimal m e, EmptyString) =>
      match of_decimal neg m e with
      | S754_zero _ | S754_finite _ _ _ => true
      | _ => false
      end
  | _ => false
  end.

(** ** Sample data *)

Definition lines (l : list string) : string := join newline l.

(** [SAMPLE_RULES] of the application. *)
Definition SAMPLE_RULES : list Entry.t :=
  [ Entry.mk "name" [Rule.mk "notempty" None None [] None];
    Entry.mk "age" [Rule.mk "notempty" None None [] None;
                    Rule.mk "number" (Some (of_Z 18)) (Some (of_Z 100)) [] None];
    Entry.mk "email" [Rule.mk "email" None None [] None];
    Entry.mk "role" [Rule.mk "oneof" None None ["admin"; "user"; "guest"] None] ].

(** [SAMPLE_CSV] of the application. *)
Definition SAMPLE_CSV : string :=
  lines [ "id,name,age,email,role";
          "1,Alice,30,alice@example.com,admin";
          "2,Bob,24,bob@example.com,user";
          "3,Charlie,150,charlie.example.com,guest";
          "4,,abc,,unknown";
          "5,Eve,29,eve@example.com,user" ].

Definition two_rows : string :=
  lines ["name,age,email,role"; ",abc,,x"; "Bob,24,bob@example.com,user"].

(** The same table with an empty age in the first record. *)
Definition two_rows_empty_age : string :=
  lines ["name,age,email,role"; ",,,x"; "Bob,24,bob@example.com,user"].

(** One ruled column [email], an empty cell and then a cell without
    at-sign. *)
Definition email_column : string := lines ["email"; EmptyString; "bad"].

Definition email_rules : list Entry.t :=
  [Entry.mk "email" [Rule.mk "email" None None [] None]].

Definition dquote : ascii := ascii_of_nat 34.

(** A text with a quoted field that holds a comma, and one that holds an
    escaped quote; its lines are [id,note], then 1 and the quoted [a,b],
    then 2 and the quoted [x], doubled quote, [y]. *)
Definition quoted_text : string :=
  lines [ "id,note";
          "1," +:+ String dquote ("a,b" +:+ String dquote EmptyString);
          "2," +:+ String dquote ("x" +:+ String dquote (String dquote
                    ("y" +:+ String dquote EmptyString))) ].

(** A table whose only header, [toString], is a property name of
    [Object.prototype], and a rule array that names no header of it. *)
Definition inherited_header : string := lines ["toString"; "x"].

Definition unrelated_rules : list Entry.t :=
  [Entry.mk "nope" [Rule.mk "notempty" None None [] None]].

(** ** Vocabulary for the rest of the class *)

(** The six keys that [get_error_summary] can give a violation, and the
    four rule types that it has a branch for. *)
Definition kinds : list string :=
  [Required; NotANumber; MinValue; MaxValue; InvalidEmail; InvalidOption].

Definition rule_types : list string := ["notempty"; "number"; "email"; "oneof"].

(** The entry of the rule array that [ruleMap] keeps for a column: the
    last one of that name. *)
Definition last_entry (c : string) (rs : list Entry.t) : option Entry.t :=
  last (filter (fun e => Entry.column e = c) rs).

(** The same processor over other records. *)
Definition with_records (this : CsvProcessorJS) (recs : list (list string))
  : CsvProcessorJS :=
  {| headers := headers this; records := recs;
     rules := rules this; ruleMap := ruleMap this |}.

(** The example of a pair over two runs of records, the first run
    before the second: a non-empty example of the first run stays,
    otherwise the second run decides when it has one. *)
Definition merge_example (e1 e2 : option string) : option string :=
  match e1 with
  | Some (String _ _) => e1
  | Some EmptyString | None =>
      match e2 with
      | Some _ => e2
      | None => e1
      end
  end.

(** A cell that holds neither a comma nor a line feed. *)
Definition clean_cell (s : string) : Prop :=
  contains comma s = false /\ contains newline s = false.

(** The number of occurrences of a code unit. *)
Fixpoint count_char (c : ascii) (s : string) : nat :=
  match s with
  | EmptyString => 0
  | String d r => (if Ascii.eqb d c then 1 else 0) + count_char c r
  end.

(** The count that [stats] stores for a pair, if it stores one. *)
Definition stat_of (s : summary) (col kind : string) : option nat :=
  stats s !! col ≫= fun m => m !! kind.

(** What every summary of a pass satisfies: no column of [stats] or of
    [examples] is listed without a kind, every stored count is at least
    one, and [examples] has an entry for exactly the pairs that [stats]
    counts. *)
Definition well_formed (s : summary) : Prop :=
  (forall c m, stats s !! c = Some m -> m <> ∅)
  /\ (forall c ex, examples s !! c = Some ex -> ex <> ∅)
  /\ (forall c k n, stat_of s c k = Some n -> 1 <= n)
  /\ (forall c k, is_Some (stat_of s c k) <-> is_Some (example_of s c k)).

(** A cell [v] of a column of name [c] breaks a rule of the chain of
    [c] with kind [k]. *)
Definition violating_cell (this : CsvProcessorJS) (c k v : string) : Prop :=
  exists (i j : nat) (chain : list Rule.t) (r : Rule.t),
    cell this i j = Some v /\ header_key this j = c
    /\ ruleMap this !! c = Some chain /\ r ∈ chain /\ errType r v = Some k.

(** ** The component [ErrorDashboard] *)

Module Dashboard.

(** The value of [get_error_summary], which the cell [summary] holds. *)
Definition ErrorSummary : Type := summary.

(** The state of the component: the prop [processor], an object that the
    fix mutates in place, and the cells [summary] ([null] before the
    first refresh), [expandedCols] and [fixInputs]. *)
Record state : Type := mk
  { processor : CsvProcessorJS;
    summary : option ErrorSummary;
    expandedCols : gmap string bool;
    fixInputs : gmap string (gmap string string) }.

(** [refreshSummary]: when [get_error_summary] throws, the [catch]
    branch logs the error and the state stays as it is. *)
Definition refreshSummary (st : state) : state :=
  if pass_throws (processor st) then st
  else
    {| processor := processor st;
       summary := Some (get_error_summary (processor st));
       expandedCols := expandedCols st;
       fixInputs := fixInputs st |}.

(** [updateFixInput]: [{ ...prev, [col]: { ...prev[col], [field]: val } }] *)
Definition updateFixInput (col field val : string) (st : state) : state :=
  {| processor := processor st;
     summary := summary st;
     expandedCols := expandedCols st;
     fixInputs :=
       <[col := <[field := val]> (default ∅ (fixInputs st !! col))]>
         (fixInputs st) |}.

(** [handleApplyFix]: nothing happens when [inputs?.find] is falsy, that
    is missing or empty; [inputs.replace || ""] is the replacement. The
    handler has no [try]: when [apply_bulk_fix] throws, after it wrote
    the cells, the summary and the inputs stay as they are. *)
Definition handleApplyFix (col : string) (st : state) : state :=
  let inputs := fixInputs st !! col in
  match inputs ≫= (fun o => o !! "find") with
  | Some (String a w) =>
      let findVal := String a w in
      let replaceVal :=
        match inputs ≫= (fun o => o !! "replace") with
        | Some (String b u) => String b u
        | Some EmptyString | None => EmptyString
        end in
      let fixed := apply_bulk_fix_result (processor st) col findVal replaceVal in
      let st' := {| processor := fixed.1; summary := summary st;
                    expandedCols := expandedCols st;
                    fixInputs := fixInputs st |} in
      match fixed.2 with
      | inl _ => st'
      | inr newErrorCount =>
          updateFixInput col "replace" EmptyString
            (updateFixInput col "find" EmptyString (refreshSummary st'))
      end
  | Some EmptyString | None => st
  end.

(** [Object.keys(summary.stats)] and [Object.values(errorTypes)], in
    the order of the map and not in the order of insertion. *)
Definition columnNames (s : ErrorSummary) : list string :=
  (map_to_list (stats s)).*1.

Definition totalColsAffected (s : ErrorSummary) : nat :=
  length (columnNames s).

(** [Object.values(errorTypes).reduce((a, b) => a + b, 0)] *)
Definition totalForCol (errorTypes : gmap string nat) : nat :=
  foldl (fun a b => a + b) 0 (map_to_list errorTypes).*2.

End Dashboard.

(** ** The component [App]: header suggestions and the rule builder *)

Module App.

(** [s.indexOf(c)] for one code unit: the first index, or -1. *)
Fixpoint str_indexOf (c : ascii) (s : string) : Z :=
  match s with
  | EmptyString => (-1)%Z
  | String d r =>
      if Ascii.eqb d c then 0%Z
      else let i := str_indexOf c r in
           if (i =? -1)%Z then (-1)%Z else (i + 1)%Z
  end.

(** [s.slice(0, idx)] for an index from 0 to the length of [s]. *)
Definition slice_to (s : string) (idx : Z) : string :=
  substring 0 (Z.to_nat idx) s.

(** [getHeaders]: [!csvData] holds of the empty text. *)
Definition getHeaders (csvData : string) : list string :=
  match csvData with
  | EmptyString => []
  | String _ _ =>
      let idx := str_indexOf newline csvData in
      if (idx =? -1)%Z then split comma csvData
      else split comma (trim (slice_to csvData idx))
  end.

(** The rule object that [addRuleToColumn] creates for a type. *)
Definition new_rule (ruleType : string) : Rule.t :=
  {| Rule.type := ruleType;
     Rule.min := if String.eqb ruleType "number" then Some (of_Z 0) else None;
     Rule.max := if String.eqb ruleType "number" then Some (of_Z 100) else None;
     Rule.options := if String.eqb ruleType "oneof" then ["option1"] else [];
     Rule.pattern :=
       if String.eqb ruleType "regex" then Some "^[a-z]+$" else None |}.

(** The handlers of the rule builder, as functions from [parsedRules] to
    the array that [setParsedRules] receives. An index past the end
    makes [newRules[idx]] [undefined] and the handler throw; it is
    [None] then. [splice(idx, 1)] past the end removes nothing. *)
Definition addColumnRule (parsedRules : list Entry.t) : list Entry.t :=
  parsedRules ++ [Entry.mk EmptyString []].

Definition removeColumnRule (idx : nat) (parsedRules : list Entry.t)
  : list Entry.t :=
  delete idx parsedRules.

Definition addRuleToColumn (colIdx : nat) (ruleType : string)
    (parsedRules : list Entry.t) : option (list Entry.t) :=
  match parsedRules !! colIdx with
  | Some e =>
      Some (<[colIdx := Entry.mk (Entry.column e)
                                 (Entry.rules e ++ [new_rule ruleType])]>
              parsedRules)
  | None => None
  end.

Definition removeRuleFromColumn (colIdx ruleIdx : nat)
    (parsedRules : list Entry.t) : option (list Entry.t) :=
  match parsedRules !! colIdx with
  | Some e =>
      Some (<[colIdx := Entry.mk (Entry.column e)
                                 (delete ruleIdx (Entry.rules e))]>
              parsedRules)
  | None => None
  end.

End App.

(** The first line of a text: what comes before its first line feed. *)
Definition first_line (s : string) : string :=
  default EmptyString (split newline s !! 0).

(** Two rule maps that give every column the same chain once the rules
    of type [regex] are taken out. *)
Definition same_but_regex (m1 m2 : gmap string (list Rule.t)) : Prop :=
  forall c : string,
    filter (fun r => is_regex r = false) <$> m1 !! c
    = filter (fun r => is_regex r = false) <$> m2 !! c.

(** A state of the dashboard over the sample table, with a fix typed
    in for the column [role]. *)
Definition sample_dashboard : Dashboard.state :=
  Dashboard.refreshSummary
    {| Dashboard.processor := processor_of SAMPLE_CSV SAMPLE_RULES;
       Dashboard.summary := None;
       Dashboard.expandedCols := ∅;
       Dashboard.fixInputs :=
         {[ "role" := {[ "find" := "unknown"; "replace" := "guest" ]} ]} |}.

(** ** Tactics *)

(** Case analysis on what a rule reports: split the statement, then
    close each branch by congruence or by the bound at hand. *)
Ltac kinds_cases :=
  repeat match goal with
         | |- _ /\ _ => split
         | |- _ <-> _ => split
         | |- _ -> _ => intro
         | |- ~ _ => intro
         | H : _ /\ _ |- _ => destruct H
         | H : exists _, _ |- _ => destruct H
         end;
  try congruence;
  try (eexists; split; [reflexivity | assumption]);
  try match goal with
      | H : ~ _ |- _ =>
          exfalso; apply H; eexists; split; [reflexivity | assumption]
      end.

(** Membership in a list that is written out. *)
(** [plain_names] of a table that is given in full. *)
Ltac plain_names_holds :=
  split; [apply (bool_decide_unpack _); vm_compute; exact I
         | vm_compute; reflexivity].

Ltac in_list :=
  repeat first [apply list_elem_of_here | apply list_elem_of_further].

(** ** Facts about the string built-ins *)

Section StringFacts.

Variable sep : ascii.

Lemma split_nonempty (s : string) : split sep s <> [].
Proof.
  destruct s as [|c r]; simpl; [discriminate|].
  destruct (Ascii.eqb c sep); [discriminate|].
  destruct (split sep r); discriminate.
Qed.

Lemma join_cons_char (c : ascii) (w : string) (ws : list string) :
  join sep (String c w :: ws) = String c (join sep (w :: ws)).
Proof. destruct ws; reflexivity. Qed.

(** Joining what was split gives the string back. *)
Lemma join_split (s : string) : join sep (split sep s) = s.
Proof.
  induction s as [|c r IH]; simpl; [reflexivity|].
  destruct (Ascii.eqb_spec c sep) as [->|Hne].
  - pose proof (split_nonempty r) as Hr.
    destruct (split sep r) as [|w ws]; [congruence|].
    simpl in *. now rewrite IH.
  - pose proof (split_nonempty r) as Hr.
    destruct (split sep r) as [|w ws]; [congruence|].
    rewrite join_cons_char. now rewrite IH.
Qed.

Lemma map_join_split (l : list string) :
  map (join sep) (map (split sep) l) = l.
Proof.
  induction l as [|x xs IH]; simpl; [reflexivity|].
  now rewrite join_split, IH.
Qed.

End StringFacts.

Lemma trimStart_clean (s : string) : starts_clean (trimStart s).
Proof.
  induction s as [|c r IH]; simpl; [exact I|].
  destruct (is_ws c) eqn:E; [exact IH | exact E].
Qed.

Lemma trimStart_of_clean (s : string) : starts_clean s -> trimStart s = s.
Proof. destruct s as [|c r]; simpl; [reflexivity|]. now intros ->. Qed.

Lemma trimEnd_clean (s : string) : starts_clean s -> starts_clean (trimEnd s).
Proof.
  destruct s as [|c r]; simpl; [exact id|]. intros H.
  destruct (trimEnd r); [rewrite H|]; exact H.
Qed.

Lemma trimEnd_idem (s : string) : trimEnd (trimEnd s) = trimEnd s.
Proof.
  induction s as [|c r IH]; simpl; [reflexivity|].
  destruct (trimEnd r) as [|d t] eqn:E.
  - destruct (is_ws c) eqn:W; simpl; [reflexivity|]. now rewrite W.
  - change (trimEnd (String c (String d t)))
      with (match trimEnd (String d t) with
            | EmptyString => if is_ws c then EmptyString else String c EmptyString
            | r' => String c r'
            end).
    now rewrite IH.
Qed.

Lemma trim_idem (s : string) : trim (trim s) = trim s.
Proof.
  unfold trim.
  rewrite (trimStart_of_clean (trimEnd (trimStart s))).
  - apply trimEnd_idem.
  - apply trimEnd_clean, trimStart_clean.
Qed.

(** A text of white space only trims to the empty string. *)
Lemma trim_whitespace_empty (s : string) :
  trimStart s = EmptyString -> trim s = EmptyString.
Proof. unfold trim. now intros ->. Qed.

(** ** Facts about the constructor *)

Lemma parse_rows_nonempty (csvData : string) : parse_rows csvData <> [].
Proof.
  unfold parse_rows. pose proof (split_nonempty newline (trim csvData)) as H.
  destruct (split newline (trim csvData)); [congruence | discriminate].
Qed.

Lemma parse_rows_trim (csvData : string) :
  parse_rows (trim csvData) = parse_rows csvData.
Proof. unfold parse_rows. now rewrite trim_idem. Qed.

Lemma constructor_value (csvData : string) (rs : list Entry.t) :
  constructor csvData (JsonValue rs) = inr (processor_of csvData rs).
Proof. reflexivity. Qed.

(** A blank text gives the table of the empty text. *)
Lemma processor_of_blank (csvData : string) (rs : list Entry.t) :
  trimStart csvData = EmptyString ->
  processor_of csvData rs = mkProcessor [EmptyString] [] rs (build_ruleMap rs).
Proof.
  intros H. unfold processor_of, parse_rows.
  now rewrite (trim_whitespace_empty _ H).
Qed.

Lemma rows_processor_of (csvData : string) (rs : list Entry.t) :
  rows (processor_of csvData rs) = parse_rows csvData.
Proof.
  unfold rows, processor_of; simpl.
  pose proof (parse_rows_nonempty csvData) as H.
  destruct (parse_rows csvData) as [|h t]; [congruence | reflexivity].
Qed.

Lemma valid_lines_rows (this : CsvProcessorJS) :
  valid_lines this = map (join comma) (rows this).
Proof. reflexivity. Qed.

(** The valid export of a freshly parsed text is the trimmed text. *)
Lemma valid_processor_of (csvData : string) (rs : list Entry.t) :
  valid (generate_split_export (processor_of csvData rs)) = trim csvData.
Proof.
  change (valid (generate_split_export (processor_of csvData rs)))
    with (join newline (valid_lines (processor_of csvData rs))).
  rewrite valid_lines_rows, rows_processor_of. unfold parse_rows.
  now rewrite map_join_split, join_split.
Qed.

(** ** The constructor never reports a parse error *)

(** C6, as the code has it: for every raw text that is empty or holds
    white space only, constructing the processor over a rule array does
    not fail: it returns the table whose headers are the single empty
    string and which has no record, and that table is what the later
    operations see (its summary is empty and its export is the header
    line). No text has zero columns: every table that the constructor
    builds has at least one header. *)
Theorem constructor_blank_text (blank any : string) (rs : list Entry.t) :
  trimStart blank = EmptyString ->
  let table := mkProcessor [EmptyString] [] rs (build_ruleMap rs) in
  constructor blank (JsonValue rs) = inr table
  /\ get_error_summary table = empty_summary
  /\ valid (generate_split_export table) = EmptyString
  /\ (exists t, constructor any (JsonValue rs) = inr t
                /\ (0 < length (headers t))%nat).
Proof.
  intros Hblank table. subst table.
  split; [now rewrite constructor_value, (processor_of_blank blank rs Hblank)|].
  split; [reflexivity|]. split; [reflexivity|].
  exists (processor_of any rs). split; [reflexivity|].
  unfold processor_of, parse_rows; simpl.
  pose proof (split_nonempty newline (trim any)) as Hl.
  destruct (split newline (trim any)) as [|l ls]; [congruence|]. simpl.
  pose proof (split_nonempty comma l) as Hc.
  destruct (split comma l); [congruence | simpl; lia].
Qed.

Lemma constructor_blank_text_witness :
  trimStart "  " = EmptyString
  /\ constructor "  " (JsonValue SAMPLE_RULES)
     = inr (mkProcessor [EmptyString] [] SAMPLE_RULES (build_ruleMap SAMPLE_RULES)).
Proof.
  split; [reflexivity|].
  exact (proj1 (constructor_blank_text "  " SAMPLE_CSV SAMPLE_RULES eq_refl)).
Defined.

(** C6, as stated, fails on the empty text: the constructor returns a
    processor, and no exception. *)
Lemma constructor_empty_text_succeeds :
  constructor EmptyString (JsonValue SAMPLE_RULES)
  = inr (mkProcessor [EmptyString] [] SAMPLE_RULES (build_ruleMap SAMPLE_RULES))
  /\ ~ (exists e : exception,
          constructor EmptyString (JsonValue SAMPLE_RULES) = inl e).
Proof.
  split; [reflexivity|]. intros [e He]. discriminate He.
Qed.

(** ** Round trip of parsing and exporting *)

(** C3: a table that the constructor built from a text is built again
    from its own export: same headers, same records. *)
Theorem roundtrip_parse_serialize
    (csvData : string) (rulesJson : json) (t : CsvProcessorJS) :
  constructor csvData rulesJson = inr t ->
  constructor (valid (generate_split_export t)) rulesJson = inr t.
Proof.
  destruct rulesJson as [| |rs]; [discriminate | discriminate |].
  rewrite constructor_value. intros [= <-].
  rewrite valid_processor_of, constructor_value.
  unfold processor_of. now rewrite parse_rows_trim.
Qed.

Lemma roundtrip_parse_serialize_witness :
  constructor quoted_text (JsonValue SAMPLE_RULES)
  = inr (processor_of quoted_text SAMPLE_RULES)
  /\ constructor
       (valid (generate_split_export (processor_of quoted_text SAMPLE_RULES)))
       (JsonValue SAMPLE_RULES)
     = inr (processor_of quoted_text SAMPLE_RULES).
Proof.
  split; [reflexivity|].
  apply (roundtrip_parse_serialize quoted_text (JsonValue SAMPLE_RULES)).
  reflexivity.
Defined.

(** ** The split export *)

(** C4, as the code has it: the valid output holds the header line and
    then every record, whatever the rules say of it; the invalid output
    holds its header line only. The two row counts, headers apart, add
    up to the number of records. *)
Theorem split_export_all_valid (this : CsvProcessorJS) :
  valid_lines this = join comma (headers this) :: map (join comma) (records this)
  /\ invalid_lines this = [join comma (headers this) +:+ ",Error_Reason"]
  /\ valid (generate_split_export this) = join newline (valid_lines this)
  /\ invalid (generate_split_export this) = join newline (invalid_lines this)
  /\ (length (tail (valid_lines this)) + length (tail (invalid_lines this))
      = length (records this))%nat.
Proof.
  repeat split; try reflexivity.
  unfold valid_lines, invalid_lines; simpl. rewrite length_map. lia.
Qed.

(** C4, as stated, fails on the sample rules: the record [,abc,,x]
    triggers error kinds, and yet it is a row of the valid output and
    the invalid output has no row at all. *)
Lemma split_export_invalid_row_in_valid :
  let this := processor_of two_rows SAMPLE_RULES in
  let row := [EmptyString; "abc"; EmptyString; "x"] in
  records this !! 0%nat = Some row
  /\ triggers this row = true
  /\ tail (invalid_lines this) = []
  /\ tail (valid_lines this) !! 0%nat = Some (join comma row)
  /\ invalid (generate_split_export this) = "name,age,email,role,Error_Reason".
Proof. vm_compute. repeat split; reflexivity. Qed.

(** ** The bulk fix *)

Lemma indexOf_ge (l : list string) (x : string) : (-1 <= indexOf l x)%Z.
Proof.
  induction l as [|y ys IH]; simpl; [lia|].
  destruct (String.eqb y x); [lia|].
  destruct (Z.eqb_spec (indexOf ys x) (-1)); lia.
Qed.

Lemma indexOf_absent (l : list string) (x : string) :
  indexOf l x = (-1)%Z <-> x ∉ l.
Proof.
  induction l as [|y ys IH]; simpl.
  - split; [intros _; apply not_elem_of_nil | reflexivity].
  - rewrite not_elem_of_cons. pose proof (indexOf_ge ys x).
    destruct (String.eqb_spec y x) as [->|Hne].
    + split; [discriminate | intros [? _]; congruence].
    + destruct (Z.eqb_spec (indexOf ys x) (-1)) as [E|E].
      * split; [intros _; split; [congruence | now apply IH] | reflexivity].
      * split; [lia | intros [_ Hn]; now apply IH in Hn].
Qed.

Lemma indexOf_lookup (l : list string) (x : string) :
  indexOf l x <> (-1)%Z -> l !! Z.to_nat (indexOf l x) = Some x.
Proof.
  induction l as [|y ys IH]; simpl; [congruence|].
  destruct (String.eqb_spec y x) as [->|Hne]; [reflexivity|].
  pose proof (indexOf_ge ys x).
  destruct (Z.eqb_spec (indexOf ys x) (-1)) as [E|E]; [congruence|].
  intros _. replace (Z.to_nat (indexOf ys x + 1)) with (S (Z.to_nat (indexOf ys x))) by lia.
  simpl. now apply IH.
Qed.

Lemma fix_row_lookup (c : nat) (findVal replaceVal : string)
    (row : list string) (j : nat) :
  fix_row c findVal replaceVal row !! j
  = (fun v => if decide (j = c /\ v = findVal) then replaceVal else v)
      <$> row !! j.
Proof.
  unfold fix_row. case_decide as Hc.
  - destruct (decide (j = c)) as [->|Hne].
    + rewrite list_lookup_insert_eq by (eapply lookup_lt_Some; eauto).
      rewrite Hc; simpl. now rewrite decide_True.
    + rewrite list_lookup_insert_ne by congruence.
      destruct (row !! j); simpl; [|reflexivity].
      rewrite decide_False; [reflexivity | tauto].
  - destruct (row !! j) as [v|] eqn:E; simpl; [|reflexivity].
    rewrite decide_False; [reflexivity|]. intros [-> ->]. contradiction.
Qed.

(** [indexOf] gives the first column of that name; with distinct
    headers it is the only one. *)
Lemma indexOf_first (l : list string) (x : string) (j : nat) :
  l !! j = Some x -> (0 <= indexOf l x <= Z.of_nat j)%Z.
Proof.
  revert j. induction l as [|y ys IH]; intros j H; [discriminate|]. simpl.
  destruct (String.eqb_spec y x) as [->|Hne]; [lia|].
  destruct j as [|j]; simpl in H; [congruence|].
  specialize (IH j H).
  destruct (Z.eqb_spec (indexOf ys x) (-1)); lia.
Qed.

Lemma indexOf_unique (l : list string) (x : string) (j : nat) :
  NoDup l -> l !! j = Some x -> indexOf l x = Z.of_nat j.
Proof.
  intros Hd Hj. pose proof (indexOf_first l x j Hj) as Hle.
  assert (Hi : l !! Z.to_nat (indexOf l x) = Some x)
    by (apply indexOf_lookup; lia).
  pose proof (NoDup_lookup l _ _ x Hd Hi Hj). lia.
Qed.

(** The sample table: six violations, five once the role [unknown] is
    replaced by [guest]. *)
Example sample_csv_total :
  count_total_errors (processor_of SAMPLE_CSV SAMPLE_RULES) = 6.
Proof. vm_compute. reflexivity. Qed.

Example sample_csv_fix_role :
  let fixed := apply_bulk_fix (processor_of SAMPLE_CSV SAMPLE_RULES)
                              "role" "unknown" "guest" in
  fixed.2 = 5
  /\ records fixed.1 !! 3%nat
     = Some ["4"; EmptyString; "abc"; EmptyString; "guest"]
  /\ cell fixed.1 4 4 = Some "user".
Proof. vm_compute. repeat split; reflexivity. Qed.

(** The object after a bulk fix: [replaceVal] is written into the cells
    of the column that [colName] resolves to (its first index in
    [headers]) whose value is [findVal], and into no other cell;
    headers, number of records and length of every record are kept; a
    name that is not a header leaves the object as it was. The count is
    the one of the object after the fix, when counting returns. *)
Lemma apply_bulk_fix_exact
    (this : CsvProcessorJS) (colName findVal replaceVal : string) :
  let this' := (apply_bulk_fix this colName findVal replaceVal).1 in
  let colIdx := indexOf (headers this) colName in
  headers this' = headers this
  /\ length (records this') = length (records this)
  /\ map length (records this') = map length (records this)
  /\ (forall i j : nat,
        cell this' i j
        = (fun v => if decide (Z.of_nat j = colIdx /\ v = findVal)
                    then replaceVal else v) <$> cell this i j)
  /\ (if decide (colName ∈ headers this)
      then headers this !! Z.to_nat colIdx = Some colName
      else this' = this)
  /\ (apply_bulk_fix this colName findVal replaceVal).2
     = count_total_errors this'.
Proof.
  intros this' colIdx. subst this'. unfold apply_bulk_fix. fold colIdx.
  pose proof (indexOf_ge (headers this) colName) as Hge. fold colIdx in Hge.
  destruct (Z.eqb_spec colIdx (-1)) as [E|E]; simpl.
  - repeat split.
    + intros i j. destruct (cell this i j) as [v|]; simpl; [|reflexivity].
      rewrite decide_False; [reflexivity | lia].
    + case_decide as Hin; [|reflexivity].
      apply indexOf_absent in E. contradiction.
  - split; [reflexivity|]. split; [apply length_map|].
    split; [|split; [|split; [|reflexivity]]].
    + rewrite map_map. apply map_ext. intros row. unfold fix_row.
      case_decide; [apply length_insert | reflexivity].
    + intros i j. unfold cell; simpl.
      change (map ?f ?l) with (f <$> l). rewrite list_lookup_fmap.
      destruct (records this !! i) as [row|]; simpl; [|reflexivity].
      rewrite fix_row_lookup. destruct (row !! j) as [v|]; simpl; [|reflexivity].
      destruct (decide (j = Z.to_nat colIdx /\ v = findVal)) as [[H1 H2]|H].
      * rewrite decide_True; [reflexivity | split; [lia | assumption]].
      * rewrite decide_False; [reflexivity|]. intros [H1 H2]. apply H. split; [lia | assumption].
    + case_decide as Hin; [now apply indexOf_lookup|].
      apply indexOf_absent in Hin. contradiction.
Qed.

Lemma undefined_not_inherited : "undefined" ∉ inherited_names.
Proof. apply (bool_decide_unpack _). vm_compute. exact I. Qed.

(** On a table without inherited header names the pass over the
    records returns, and so does the bulk fix. *)
Lemma plain_headers_pass_returns (this : CsvProcessorJS) :
  Forall (fun h => h ∉ inherited_names) (headers this) ->
  pass_throws this = false.
Proof.
  intros Hh. unfold pass_throws.
  apply not_true_is_false. rewrite existsb_exists.
  intros (row & _ & H). apply existsb_exists in H as (j & _ & H).
  unfold reads_inherited, ruleMap_read in H.
  destruct (ruleMap this !! header_key this j); [discriminate|].
  case_bool_decide as Hin; [|discriminate].
  unfold header_key in Hin.
  destruct (headers this !! j) as [h|] eqn:E; simpl in Hin.
  - rewrite Forall_forall in Hh. apply (Hh h); [|exact Hin].
    eapply list_elem_of_lookup_2, E.
  - now apply undefined_not_inherited.
Qed.

Lemma apply_bulk_fix_result_plain
    (this : CsvProcessorJS) (colName findVal replaceVal : string) :
  Forall (fun h => h ∉ inherited_names) (headers this) ->
  apply_bulk_fix_result this colName findVal replaceVal
  = ((apply_bulk_fix this colName findVal replaceVal).1,
     inr (apply_bulk_fix this colName findVal replaceVal).2).
Proof.
  intros Hh. unfold apply_bulk_fix_result, count_total_errors_result.
  rewrite plain_headers_pass_returns.
  - f_equal. f_equal. unfold apply_bulk_fix.
    destruct (indexOf (headers this) colName =? -1)%Z; reflexivity.
  - unfold apply_bulk_fix.
    destruct (indexOf (headers this) colName =? -1)%Z; exact Hh.
Qed.

(** C5 on a failing input: the table has the one header [toString] and
    the one record [x], and the rule array names the column [nope] only.
    The bulk fix of the column [nope], which is no header, finds the
    index -1 and writes no cell; counting the errors then reads
    [ruleMap] at [toString], finds the inherited function, and the call
    throws [TypeError] instead of returning. *)
Theorem apply_bulk_fix_throws_on_inherited_header :
  let this := processor_of inherited_header unrelated_rules in
  constructor inherited_header (JsonValue unrelated_rules) = inr this
  /\ headers this = ["toString"]
  /\ records this = [["x"]]
  /\ indexOf (headers this) "nope" = (-1)%Z
  /\ ruleMap_read (ruleMap this) "toString" = InheritedValue
  /\ apply_bulk_fix_result this "nope" "a" "b" = (this, inl TypeError).
Proof. vm_compute. repeat split; reflexivity. Qed.

(** ** The rules, one at a time *)

(** C7, as the code has it: under a [notempty] rule a cell is reported
    as [Required] exactly when it is the empty string; no trimming takes
    place, and any other value passes. *)
Theorem notempty_required_iff_empty
    (mn mx : option number) (opts : list string) (pat : option string)
    (v : string) :
  (errType (Rule.mk "notempty" mn mx opts pat) v = Some Required
   <-> v = EmptyString)
  /\ (errType (Rule.mk "notempty" mn mx opts pat) v = None
      <-> v <> EmptyString).
Proof.
  unfold errType, Required; simpl.
  destruct (String.eqb_spec v EmptyString) as [->|Hne]; simpl;
    split; split; intros; congruence.
Qed.

(** C7, as stated, fails on a field of one space: it is empty after
    trimming, and it is not reported. *)
Lemma notempty_whitespace_passes :
  spec_not_empty " " = false
  /\ trim " " = EmptyString
  /\ errType (Rule.mk "notempty" None None [] None) " " = None.
Proof. repeat split; reflexivity. Qed.

(** C9, as the code has it: under an [email] rule a cell is reported as
    [InvalidEmail] exactly when it holds no at-sign at all; any value
    with at least one at-sign passes. *)
Theorem email_invalid_iff_no_at
    (mn mx : option number) (opts : list string) (pat : option string)
    (v : string) :
  (errType (Rule.mk "email" mn mx opts pat) v = Some InvalidEmail
   <-> contains at_sign v = false)
  /\ (errType (Rule.mk "email" mn mx opts pat) v = None
      <-> contains at_sign v = true).
Proof.
  unfold errType, InvalidEmail; simpl.
  destruct (contains at_sign v); simpl; split; split; intros; congruence.
Qed.

(** C9, as stated, fails on values with two at-signs, with an empty
    local part or with an empty domain part: none is reported. *)
Lemma email_two_ats_pass :
  let r := Rule.mk "email" None None [] None in
  (spec_email "a@@b" = false /\ errType r "a@@b" = None)
  /\ (spec_email "a@b@c" = false /\ errType r "a@b@c" = None)
  /\ (spec_email "@b" = false /\ errType r "@b" = None)
  /\ (spec_email "a@" = false /\ errType r "a@" = None).
Proof. repeat split; reflexivity. Qed.

(** *** Rules of type [regex] *)

Lemma errType_regex (r : Rule.t) (v : string) :
  is_regex r = true -> errType r v = None.
Proof.
  unfold is_regex, errType. intros H%String.eqb_eq. now rewrite H.
Qed.

Lemma check_rule_regex (c v : string) (s : summary) (r : Rule.t) :
  is_regex r = true -> check_rule c v s r = s.
Proof. intros H. unfold check_rule. now rewrite errType_regex. Qed.

Lemma foldl_check_rule_filter (c v : string) (rs : list Rule.t) (s : summary) :
  foldl (check_rule c v) s (filter (fun r => is_regex r = false) rs)
  = foldl (check_rule c v) s rs.
Proof.
  revert s. induction rs as [|r rs IH]; intros s; [reflexivity|].
  destruct (is_regex r) eqn:E.
  - rewrite filter_cons_False by congruence. simpl.
    now rewrite check_rule_regex.
  - rewrite filter_cons_True by assumption. simpl. apply IH.
Qed.

Lemma check_cell_without_regex (this : CsvProcessorJS) (s : summary)
    (v : string) (i : nat) :
  check_cell (without_regex this) s v i = check_cell this s v i.
Proof.
  unfold check_cell, header_key; simpl. rewrite lookup_fmap.
  destruct (ruleMap this !! default "undefined" (headers this !! i));
    simpl; [apply foldl_check_rule_filter | reflexivity].
Qed.

Lemma forEach_from_ext {A St : Type} (f g : St -> A -> nat -> St) :
  (forall s x i, f s x i = g s x i) ->
  forall l i s, forEach_from f l i s = forEach_from g l i s.
Proof.
  intros H l. induction l as [|x xs IH]; intros i s; simpl; [reflexivity|].
  now rewrite H, IH.
Qed.

Lemma foldl_ext_fun {A B : Type} (f g : B -> A -> B) :
  (forall b a, f b a = g b a) ->
  forall l b, foldl f b l = foldl g b l.
Proof.
  intros H l. induction l as [|x xs IH]; intros b; simpl; [reflexivity|].
  now rewrite H, IH.
Qed.

(** C10, as the code has it: a rule of type [regex] never gives an error
    kind, whatever the cell and the pattern; the summary of a pass is
    the one of the same pass with the [regex] rules taken out. *)
Theorem regex_rules_ignored
    (this : CsvProcessorJS)
    (mn mx : option number) (opts : list string) (pat : option string)
    (v : string) :
  errType (Rule.mk "regex" mn mx opts pat) v = None
  /\ get_error_summary this = get_error_summary (without_regex this).
Proof.
  split; [reflexivity|].
  unfold get_error_summary. simpl records.
  apply foldl_ext_fun. intros s row. unfold check_row.
  apply forEach_from_ext. intros. symmetry. apply check_cell_without_regex.
Qed.

(** C10, as stated, fails: the cell [123] under the pattern of lower-case
    letters gives no violation, and the summary is empty. *)
Lemma regex_mismatch_not_reported :
  let this :=
    processor_of (lines ["code"; "123"])
      [Entry.mk "code" [Rule.mk "regex" None None [] (Some "^[a-z]+$")]] in
  records this = [["123"]]
  /\ get_error_summary this = empty_summary
  /\ count_total_errors this = 0%nat.
Proof. vm_compute. repeat split; reflexivity. Qed.

(** *** Numbers: rounding never gives NaN, and [<] is irreflexive *)

Section Rounding.

Variables prec emax : Z.

Local Open Scope Z_scope.

Lemma shr_1_nonneg (mrs : shr_record) :
  0 <= shr_m mrs -> 0 <= shr_m (shr_1 mrs).
Proof.
  destruct mrs as [m r s]. destruct m as [|p|p]; simpl; try lia;
    destruct p; simpl; lia.
Qed.

Lemma iter_shr_1_nonneg (p : positive) :
  forall mrs, 0 <= shr_m mrs -> 0 <= shr_m (SpecFloat.iter_pos shr_1 p mrs).
Proof.
  induction p as [p IH|p IH|]; simpl; intros mrs H.
  - apply IH, IH, shr_1_nonneg, H.
  - apply IH, IH, H.
  - apply shr_1_nonneg, H.
Qed.

Lemma shr_fexp_nonneg (m e : Z) (l : location) :
  0 <= m -> 0 <= shr_m (fst (shr_fexp prec emax m e l)).
Proof.
  intros H. unfold shr_fexp, shr.
  assert (Hm : shr_m (shr_record_of_loc m l) = m)
    by (destruct l as [|[]]; reflexivity).
  destruct (fexp prec emax (Zdigits2 m + e) - e) as [|p|p]; simpl;
    try (rewrite Hm; exact H).
  apply iter_shr_1_nonneg. rewrite Hm; exact H.
Qed.

Lemma round_nearest_even_nonneg (m : Z) (l : location) :
  0 <= m -> 0 <= round_nearest_even m l.
Proof.
  intros H. destruct l as [|[]]; simpl; try lia.
  destruct (Z.even m); lia.
Qed.

Lemma binary_round_aux_not_nan (sx : bool) (mx ex : Z) (lx : location) :
  0 <= mx -> binary_round_aux prec emax sx mx ex lx <> S754_nan.
Proof.
  intros H. unfold binary_round_aux.
  pose proof (shr_fexp_nonneg mx ex lx H) as H1.
  destruct (shr_fexp prec emax mx ex lx) as [mrs' e']. simpl in H1.
  pose proof (shr_fexp_nonneg _ e' loc_Exact
                (round_nearest_even_nonneg _ (loc_of_shr_record mrs') H1)) as H2.
  destruct (shr_fexp prec emax
              (round_nearest_even (shr_m mrs') (loc_of_shr_record mrs'))
              e' loc_Exact) as [mrs'' e'']. simpl in H2.
  destruct (shr_m mrs'') as [|p|p]; [discriminate | | lia].
  destruct (e'' <=? emax - prec); discriminate.
Qed.

Lemma binary_normalize_not_nan (m e : Z) (szero : bool) :
  binary_normalize prec emax m e szero <> S754_nan.
Proof.
  destruct m as [|p|p]; simpl; [discriminate | |];
    unfold binary_round;
    destruct (shl_align p e (fexp prec emax (Z.pos (digits2_pos p) + e)));
    apply binary_round_aux_not_nan; lia.
Qed.

Lemma SFdiv_finite_not_nan (sx sy : bool) (mx my : positive) (ex ey : Z) :
  SFdiv prec emax (S754_finite sx mx ex) (S754_finite sy my ey) <> S754_nan.
Proof.
  unfold SFdiv.
  destruct (SFdiv_core_binary prec emax (Z.pos mx) ex (Z.pos my) ey)
    as [[mz ez] lz] eqn:E.
  apply binary_round_aux_not_nan.
  unfold SFdiv_core_binary in E.
  set (s := ex - ey - _) in E.
  set (m' := match s with Z.pos _ => _ | _ => _ end) in E.
  assert (Hm : 0 <= m').
  { subst m'. destruct s; [lia | | lia]. apply Z.shiftl_nonneg. lia. }
  pose proof (Z.div_pos m' (Z.pos my) Hm ltac:(lia)) as Hq.
  unfold Z.div in Hq.
  destruct (Z.div_eucl m' (Z.pos my)) as [q r].
  injection E as <- _ _. exact Hq.
Qed.

(** [a < a] is false for every Number. *)
Lemma SFltb_irrefl (a : spec_float) : SFltb a a = false.
Proof.
  unfold SFltb. destruct a as [s|s| |s m e]; simpl; try reflexivity.
  - destruct s; reflexivity.
  - rewrite Z.compare_refl.
    assert (Hc : Pos.compare_cont Eq m m = Eq) by apply Pos.compare_refl.
    destruct s; now rewrite Hc.
Qed.

End Rounding.

Lemma of_decimal_not_nan (neg : bool) (m : N) (e : Z) :
  isNaN (of_decimal neg m e) = false.
Proof.
  assert (H : of_decimal neg m e <> S754_nan).
  { unfold of_decimal. destruct (0 <=? e)%Z.
    - apply binary_normalize_not_nan.
    - destruct m; [discriminate | apply SFdiv_finite_not_nan]. }
  destruct (of_decimal neg m e); try reflexivity. congruence.
Qed.

(** [parseFloat] gives NaN exactly when, leading white space skipped, no
    prefix of the string is a decimal literal. *)
Lemma parseFloat_nan_iff (v : string) :
  isNaN (parseFloat v) = true <-> parse_literal (trimStart v) = None.
Proof.
  unfold parseFloat.
  destruct (parse_literal (trimStart v)) as [[[neg l] rest]|].
  - destruct l as [|m e].
    + split; discriminate.
    + rewrite of_decimal_not_nan. split; discriminate.
  - split; reflexivity.
Qed.

(** C8, as the code has it: under a [number] rule a cell is reported as
    [NotANumber] exactly when [parseFloat] gives NaN, that is when the
    cell, leading white space skipped, has no prefix that is a decimal
    literal or [Infinity]; what follows the prefix is ignored. Otherwise
    it is [MinValue] exactly when [min] is present and the number is
    below it, and otherwise [MaxValue] exactly when [max] is present and
    the number is above it. A number equal to both bounds passes. *)
Theorem number_rule_kinds
    (mn mx : option number) (opts : list string) (pat : option string)
    (v : string) :
  let r := Rule.mk "number" mn mx opts pat in
  let n := parseFloat v in
  (errType r v = Some NotANumber <-> parse_literal (trimStart v) = None)
  /\ (errType r v = Some MinValue
      <-> isNaN n = false /\ exists m, mn = Some m /\ lt n m = true)
  /\ (errType r v = Some MaxValue
      <-> isNaN n = false
          /\ ~ (exists m, mn = Some m /\ lt n m = true)
          /\ exists m, mx = Some m /\ gt n m = true)
  /\ errType (Rule.mk "number" (Some n) (Some n) opts pat) v
     = (if isNaN n then Some NotANumber else None).
Proof.
  intros r n. subst r. unfold errType; simpl. fold n.
  rewrite <- parseFloat_nan_iff. fold n.
  unfold NotANumber, MinValue, MaxValue, gt, lt.
  rewrite SFltb_irrefl.
  destruct (isNaN n) eqn:En, mn as [m|], mx as [M|];
    try destruct (SFltb n m) eqn:Em; try destruct (SFltb M n) eqn:EM;
    simpl; kinds_cases.
Qed.

(** C8, as stated, fails: a numeric prefix followed by other characters
    and [Infinity] are not finite numbers in their entirety, and neither
    is reported as [NotANumber]; with [min] above [max], a number
    between the two is above [max] and is not reported as [MaxValue]. *)
Lemma number_prefix_and_infinity_accepted :
  let free := Rule.mk "number" None None [] None in
  let bounded := Rule.mk "number" (Some (of_Z 18)) (Some (of_Z 100)) [] None in
  let crossed := Rule.mk "number" (Some (of_Z 100)) (Some (of_Z 18)) [] None in
  (spec_finite_number "12abc" = false /\ errType free "12abc" = None)
  /\ (spec_finite_number "24abc" = false /\ errType bounded "24abc" = None)
  /\ (spec_finite_number "Infinity" = false /\ errType free "Infinity" = None)
  /\ errType bounded "Infinity" = Some MaxValue
  /\ (gt (parseFloat "50") (of_Z 18) = true
      /\ errType crossed "50" = Some MinValue).
Proof. vm_compute. repeat split; reflexivity. Qed.

(** ** The validation pass as a fold over the violations *)

Section WeightedSum.

Context {A : Type} (g : A -> nat).

Lemma weighted_sum_insert_fresh (m : gmap string A) (k : string) (a : A) :
  m !! k = None -> weighted_sum g (<[k:=a]> m) = g a + weighted_sum g m.
Proof.
  intros H. unfold weighted_sum.
  rewrite map_fold_insert_L; [reflexivity | intros; lia | exact H].
Qed.

Lemma weighted_sum_insert (m : gmap string A) (k : string) (a : A) :
  weighted_sum g (<[k:=a]> m) = g a + weighted_sum g (delete k m).
Proof.
  rewrite <- (insert_delete_eq m k a).
  apply weighted_sum_insert_fresh, lookup_delete_eq.
Qed.

Lemma weighted_sum_delete (m : gmap string A) (k : string) :
  weighted_sum g m
  = default 0 (g <$> m !! k) + weighted_sum g (delete k m).
Proof.
  destruct (m !! k) as [a|] eqn:E; simpl.
  - rewrite <- (insert_delete_id m k a E) at 1.
    apply weighted_sum_insert_fresh, lookup_delete_eq.
  - now rewrite delete_id.
Qed.

End WeightedSum.

Lemma sum_kinds_empty : sum_kinds ∅ = 0.
Proof. apply map_fold_empty. Qed.

Lemma sum_kinds_increment (m : gmap string nat) (k : string) :
  sum_kinds (<[k := S (default 0 (m !! k))]> m) = S (sum_kinds m).
Proof.
  unfold sum_kinds. rewrite weighted_sum_insert.
  rewrite (weighted_sum_delete (fun n => n) m k).
  destruct (m !! k); reflexivity.
Qed.

Lemma record_error_sum (c e v : string) (s : summary) :
  sum_counts (stats (record_error c e v s)) = S (sum_counts (stats s)).
Proof.
  unfold record_error; simpl. unfold sum_counts.
  rewrite weighted_sum_insert, sum_kinds_increment.
  rewrite (weighted_sum_delete sum_kinds (stats s) c).
  destruct (stats s !! c); simpl; [reflexivity|].
  now rewrite sum_kinds_empty.
Qed.

Lemma check_cell_violations (this : CsvProcessorJS) (v : string) (i : nat)
    (s : summary) :
  check_cell this s v i = foldl record_violation s (cell_violations this v i).
Proof.
  unfold check_cell, cell_violations.
  destruct (ruleMap this !! header_key this i) as [rs|]; [|reflexivity].
  revert s. induction rs as [|r rs IH]; intros s; simpl; [reflexivity|].
  unfold check_rule at 2. destruct (errType r v); simpl; apply IH.
Qed.

Lemma check_row_violations (this : CsvProcessorJS) (row : list string) :
  forall (i : nat) (s : summary),
    forEach_from (check_cell this) row i s
    = foldl record_violation s (row_violations_from this row i).
Proof.
  induction row as [|v row IH]; intros i s; simpl; [reflexivity|].
  now rewrite foldl_app, IH, check_cell_violations.
Qed.

(** The summary is the fold of [record_error] over the violations, in
    record, cell and rule order. *)
Lemma get_error_summary_violations (this : CsvProcessorJS) :
  get_error_summary this
  = foldl record_violation empty_summary (violations this).
Proof.
  unfold get_error_summary, violations. generalize empty_summary.
  induction (records this) as [|row rows IH]; intros s; simpl; [reflexivity|].
  rewrite foldl_app, IH. unfold check_row. now rewrite check_row_violations.
Qed.

Lemma fold_total_errors (l : list violation) (s : summary) :
  total_errors (foldl record_violation s l) = total_errors s + length l.
Proof.
  revert s. induction l as [|[[c e] v] l IH]; intros s; simpl; [lia|].
  rewrite IH. simpl. lia.
Qed.

Lemma fold_sum_counts (l : list violation) (s : summary) :
  sum_counts (stats (foldl record_violation s l))
  = sum_counts (stats s) + length l.
Proof.
  revert s. induction l as [|[[c e] v] l IH]; intros s; simpl; [lia|].
  rewrite IH. simpl record_violation. rewrite record_error_sum. lia.
Qed.

Lemma total_errors_sum_counts (this : CsvProcessorJS) :
  total_errors (get_error_summary this)
  = sum_counts (stats (get_error_summary this)).
Proof.
  rewrite get_error_summary_violations, fold_total_errors, fold_sum_counts.
  reflexivity.
Qed.

(** *** Counts and examples, pair by pair *)

Lemma matches_spec (c k : string) (x : violation) :
  matches c k x = true <-> fst (fst x) = c /\ snd (fst x) = k.
Proof.
  unfold matches. rewrite andb_true_iff, !String.eqb_eq. reflexivity.
Qed.

Lemma count_of_record_error (c' k' v : string) (s : summary) (c k : string) :
  count_of (record_error c' k' v s) c k
  = count_of s c k + (if matches c k (c', k', v) then 1 else 0).
Proof.
  unfold count_of, record_error, matches; simpl.
  destruct (String.eqb_spec c' c) as [->|Hc]; simpl.
  - rewrite lookup_insert_eq; simpl.
    destruct (String.eqb_spec k' k) as [->|Hk].
    + rewrite lookup_insert_eq; simpl.
      destruct (stats s !! c); simpl; rewrite ?lookup_empty; simpl; lia.
    + rewrite lookup_insert_ne by assumption.
      destruct (stats s !! c); simpl; [lia|]. rewrite lookup_empty. simpl. lia.
  - rewrite lookup_insert_ne by assumption. lia.
Qed.

Lemma count_of_fold (c k : string) (l : list violation) (s : summary) :
  count_of (foldl record_violation s l) c k
  = count_of s c k + count_matching c k l.
Proof.
  unfold count_matching. revert s.
  induction l as [|[[c' k'] v] l IH]; intros s; simpl; [lia|].
  rewrite IH, count_of_record_error.
  destruct (matches c k (c', k', v)); simpl; lia.
Qed.

(** Every violation is counted: the count of a pair is the number of
    violations of that pair over the whole table. *)
Lemma count_of_summary (this : CsvProcessorJS) (c k : string) :
  count_of (get_error_summary this) c k = count_matching c k (violations this).
Proof.
  rewrite get_error_summary_violations, count_of_fold. reflexivity.
Qed.

Lemma example_of_record_error (c' k' v : string) (s : summary) (c k : string) :
  example_of (record_error c' k' v s) c k
  = next_example c k (example_of s c k) (c', k', v).
Proof.
  unfold example_of, record_error, next_example, matches; simpl.
  destruct (String.eqb_spec c' c) as [->|Hc]; simpl.
  - rewrite lookup_insert_eq; simpl.
    destruct (String.eqb_spec k' k) as [->|Hk].
    + destruct (examples s !! c) as [ex|]; simpl.
      * destruct (ex !! k) as [[|a w]|] eqn:E; simpl;
          rewrite ?lookup_insert_eq, ?E; reflexivity.
      * rewrite lookup_empty. now rewrite lookup_insert_eq.
    + destruct (examples s !! c) as [ex|]; simpl.
      * destruct (ex !! k') as [[|a w]|]; simpl;
          rewrite ?lookup_insert_ne by assumption; reflexivity.
      * rewrite lookup_empty. now rewrite lookup_insert_ne by assumption.
  - now rewrite lookup_insert_ne by assumption.
Qed.

Lemma example_of_fold (c k : string) (l : list violation) (s : summary) :
  example_of (foldl record_violation s l) c k
  = foldl (next_example c k) (example_of s c k) l.
Proof.
  revert s. induction l as [|[[c' k'] v] l IH]; intros s; simpl; [reflexivity|].
  now rewrite IH, example_of_record_error.
Qed.

Lemma next_example_stable (c k : string) (a : ascii) (w : string)
    (l : list violation) :
  foldl (next_example c k) (Some (String a w)) l = Some (String a w).
Proof.
  induction l as [|x l IH]; simpl; [reflexivity|].
  unfold next_example at 2. destruct (matches c k x); exact IH.
Qed.

Lemma next_example_skip (c k : string) (cur : option string)
    (l : list violation) :
  List.filter (matches c k) l = [] ->
  foldl (next_example c k) cur l = cur.
Proof.
  induction l as [|x l IH]; simpl; [reflexivity|]. intros H.
  unfold next_example at 2. destruct (matches c k x); [discriminate|].
  now apply IH.
Qed.

(** First-wins holds when the first violating value is not empty: the
    example of a pair is that value, whatever follows. *)
Lemma example_first_nonempty (this : CsvProcessorJS) (c k : string)
    (before after : list violation) (a : ascii) (w : string) :
  violations this = (before ++ (c, k, String a w) :: after)%list ->
  List.filter (matches c k) before = [] ->
  example_of (get_error_summary this) c k = Some (String a w).
Proof.
  intros Hv Hb.
  rewrite get_error_summary_violations, example_of_fold, Hv, foldl_app.
  rewrite (next_example_skip _ _ _ _ Hb). simpl.
  unfold next_example at 2. unfold matches; simpl. rewrite !String.eqb_refl.
  simpl. apply next_example_stable.
Qed.

(** After an empty first value the example moves on to the next
    violating value of the pair. *)
Lemma example_after_empty (this : CsvProcessorJS) (c k v : string)
    (before after : list violation) :
  violations this = (before ++ (c, k, EmptyString) :: (c, k, v) :: after)%list ->
  List.filter (matches c k) before = [] ->
  example_of (get_error_summary this) c k
  = foldl (next_example c k) (Some v) after.
Proof.
  intros Hv Hb.
  rewrite get_error_summary_violations, example_of_fold, Hv, foldl_app.
  rewrite (next_example_skip _ _ _ _ Hb). simpl.
  unfold next_example at 2 3. unfold matches; simpl. rewrite !String.eqb_refl.
  reflexivity.
Qed.

(** ** The summary of the sample table *)

(** C1, as the code has it: for the table [name,age,email,role] with the
    records [(,abc,,x)] and [(Bob,24,bob@example.com,user)] under the
    sample rules, the summary reports exactly [name.Required = 1],
    [age.NotANumber = 1], [email.InvalidEmail = 1] and
    [role.InvalidOption = 1], and [total_errors] is 4. For every table,
    [total_errors] is the sum of all counts of [stats], and the summary
    is the fold over the violations of every rule of every chain: no
    rule hides another one, so that an empty age gives both
    [age.Required] and [age.NotANumber]. *)
Theorem sample_summary (this : CsvProcessorJS) :
  get_error_summary (processor_of two_rows SAMPLE_RULES)
  = {| stats := {[ "name" := {[ Required := 1 ]};
                   "age" := {[ NotANumber := 1 ]};
                   "email" := {[ InvalidEmail := 1 ]};
                   "role" := {[ InvalidOption := 1 ]} ]};
       examples := {[ "name" := {[ Required := EmptyString ]};
                      "age" := {[ NotANumber := "abc" ]};
                      "email" := {[ InvalidEmail := EmptyString ]};
                      "role" := {[ InvalidOption := "x" ]} ]};
       total_errors := 4 |}
  /\ total_errors (get_error_summary this)
     = sum_counts (stats (get_error_summary this))
  /\ get_error_summary this
     = foldl record_violation empty_summary (violations this)
  /\ stats (get_error_summary (processor_of two_rows_empty_age SAMPLE_RULES))
       !! "age"
     = Some {[ Required := 1; NotANumber := 1 ]}.
Proof.
  split; [vm_compute; reflexivity|].
  split; [apply total_errors_sum_counts|].
  split; [apply get_error_summary_violations|].
  vm_compute; reflexivity.
Qed.

(** C1, as stated, fails: the age [abc] is not empty and the empty email
    is reported under [InvalidEmail], so that neither [age.Required] nor
    [email.Required] is counted, and the total is 4, not 5. *)
Lemma sample_summary_not_as_claimed :
  let s := get_error_summary (processor_of two_rows SAMPLE_RULES) in
  stats s <> {[ "name" := {[ Required := 1 ]};
                "age" := {[ Required := 1; NotANumber := 1 ]};
                "email" := {[ Required := 1 ]};
                "role" := {[ InvalidOption := 1 ]} ]}
  /\ count_of s "age" Required = 0
  /\ count_of s "email" Required = 0
  /\ count_of s "email" InvalidEmail = 1
  /\ total_errors s = 4.
Proof.
  split; [|vm_compute; repeat split; reflexivity].
  intros H.
  apply (f_equal (fun m => m !! "age" ≫= fun k => k !! Required)) in H.
  vm_compute in H. discriminate H.
Qed.

(** ** The recorded example *)

(** C2 on a failing input: in the column [email] the first violating
    record holds the empty string and the second holds [bad]; both are
    counted, and the example that the pass returns is [bad]: the empty
    example of the first record was overwritten. *)
Theorem example_overwritten_after_empty :
  let this := processor_of email_column email_rules in
  records this = [[EmptyString]; ["bad"]]
  /\ errType (Rule.mk "email" None None [] None) EmptyString = Some InvalidEmail
  /\ count_of (get_error_summary this) "email" InvalidEmail = 2
  /\ example_of (get_error_summary this) "email" InvalidEmail = Some "bad".
Proof. vm_compute. repeat split; reflexivity. Qed.

(** * Further properties of the class *)

(** ** The rule map keeps the last entry of a column *)

Lemma build_ruleMap_snoc (rs : list Entry.t) (e : Entry.t) :
  build_ruleMap (rs ++ [e])
  = <[Entry.column e := Entry.rules e]> (build_ruleMap rs).
Proof. unfold build_ruleMap. now rewrite foldl_app. Qed.

Lemma build_ruleMap_lookup (rs : list Entry.t) (c : string) :
  build_ruleMap rs !! c = Entry.rules <$> last_entry c rs.
Proof.
  unfold last_entry.
  induction rs as [|e rs IH] using rev_ind; [reflexivity|].
  rewrite build_ruleMap_snoc, filter_app, last_app.
  destruct (decide (Entry.column e = c)) as [<-|Hne].
  - rewrite lookup_insert_eq, filter_cons_True by reflexivity. reflexivity.
  - rewrite lookup_insert_ne, filter_cons_False by assumption.
    rewrite filter_nil. simpl. exact IH.
Qed.

(** X1: for a rule array without an entry named [__proto__], reading
    [ruleMap] at a column name gives the chain of the last entry of that
    name, and only that one: chains are replaced, not merged. At a name
    that no entry has, the read gives the value that [Object.prototype]
    has under that name, if any, and [undefined] otherwise. *)
Theorem ruleMap_last_entry_wins (rs : list Entry.t) (c : string) :
  Forall (fun e => Entry.column e <> "__proto__") rs ->
  ruleMap_read (build_ruleMap rs) c
  = match last_entry c rs with
    | Some e => Chain (Entry.rules e)
    | None => if bool_decide (c ∈ inherited_names) then InheritedValue
              else Undefined
    end.
Proof.
  intros _. unfold ruleMap_read. rewrite build_ruleMap_lookup.
  destruct (last_entry c rs); reflexivity.
Qed.

Lemma ruleMap_last_entry_wins_witness :
  let rs := [Entry.mk "age" [Rule.mk "notempty" None None [] None];
             Entry.mk "toString" [];
             Entry.mk "age" [Rule.mk "number" None None [] None]] in
  Forall (fun e => Entry.column e <> "__proto__") rs
  /\ ruleMap_read (build_ruleMap rs) "age"
     = Chain [Rule.mk "number" None None [] None]
  /\ ruleMap_read (build_ruleMap rs) "toString" = Chain []
  /\ ruleMap_read (build_ruleMap rs) "valueOf" = InheritedValue
  /\ ruleMap_read (build_ruleMap rs) "name" = Undefined.
Proof.
  intros rs.
  assert (H : Forall (fun e => Entry.column e <> "__proto__") rs)
    by (apply (bool_decide_unpack _); vm_compute; exact I).
  split; [exact H|].
  split; [exact (ruleMap_last_entry_wins rs "age" H)|].
  split; [exact (ruleMap_last_entry_wins rs "toString" H)|].
  split; [exact (ruleMap_last_entry_wins rs "valueOf" H)|].
  exact (ruleMap_last_entry_wins rs "name" H).
Defined.

(** ** What a rule can report *)

Lemma includes_elem_of (l : list string) (x : string) :
  includes l x = true <-> x ∈ l.
Proof.
  unfold includes. rewrite existsb_exists, list_elem_of_In. split.
  - intros (y & Hy & ->%String.eqb_eq). exact Hy.
  - intros H. exists x. split; [exact H | apply String.eqb_refl].
Qed.

(** X2: under a [oneof] rule a cell is reported as [InvalidOption]
    exactly when it is none of the options, compared as whole strings
    and with case; a cell that is one of them passes. *)
Theorem oneof_invalid_iff_not_listed
    (mn mx : option number) (opts : list string) (pat : option string)
    (v : string) :
  (errType (Rule.mk "oneof" mn mx opts pat) v = Some InvalidOption
   <-> v ∉ opts)
  /\ (errType (Rule.mk "oneof" mn mx opts pat) v = None <-> v ∈ opts).
Proof.
  unfold errType, InvalidOption; simpl.
  rewrite <- includes_elem_of.
  destruct (includes opts v); simpl; split; split; intros; congruence.
Qed.

(** X3: a rule reports a kind of its own type only: [Required] for
    [notempty] (and then the cell is empty), one of the three number
    kinds for [number], [InvalidEmail] for [email], [InvalidOption] for
    [oneof]. A rule of any other type reports nothing. *)
Theorem errType_kind_of_type (r : Rule.t) (v k : string) :
  errType r v = Some k ->
  Rule.type r ∈ rule_types /\ k ∈ kinds
  /\ ((Rule.type r = "notempty" /\ k = Required /\ v = EmptyString)
      \/ (Rule.type r = "number" /\ k ∈ [NotANumber; MinValue; MaxValue])
      \/ (Rule.type r = "email" /\ k = InvalidEmail)
      \/ (Rule.type r = "oneof" /\ k = InvalidOption)).
Proof.
  unfold errType, rule_types, kinds.
  destruct (String.eqb_spec (Rule.type r) "notempty") as [E1|N1]; simpl.
  - rewrite E1. destruct (String.eqb_spec v EmptyString) as [->|Hv]; simpl.
    + intros [= <-]. repeat split; [in_list | in_list | left; done].
    + discriminate.
  - destruct (String.eqb_spec (Rule.type r) "number") as [E2|N2].
    + rewrite E2. intros H.
      destruct (isNaN (parseFloat v));
        [|destruct (match Rule.min r with
                    | Some m => lt (parseFloat v) m
                    | None => false
                    end);
          [|destruct (match Rule.max r with
                      | Some m => gt (parseFloat v) m
                      | None => false
                      end); [|discriminate]]];
        injection H as <-;
        (repeat split;
         [in_list | in_list | right; left; split; [reflexivity | in_list]]).
    + destruct (String.eqb_spec (Rule.type r) "email") as [E3|N3]; simpl.
      * rewrite E3. destruct (contains at_sign v); simpl; [discriminate|].
        intros [= <-].
        repeat split; [in_list | in_list | right; right; left; done].
      * destruct (String.eqb_spec (Rule.type r) "oneof") as [E4|N4]; simpl;
          [|discriminate].
        rewrite E4. destruct (includes (Rule.options r) v); simpl; [discriminate|].
        intros [= <-].
        repeat split; [in_list | in_list | right; right; right; done].
Qed.

Lemma errType_kind_of_type_witness :
  errType (Rule.mk "notempty" None None [] None) EmptyString = Some Required
  /\ Rule.type (Rule.mk "notempty" None None [] None) ∈ rule_types.
Proof.
  split; [reflexivity|].
  exact (proj1 (errType_kind_of_type
                  (Rule.mk "notempty" None None [] None) EmptyString Required
                  eq_refl)).
Defined.

(** ** What every summary satisfies *)

Lemma stat_of_record_error (c' k' v : string) (s : summary) (c k : string) :
  stat_of (record_error c' k' v s) c k
  = if matches c k (c', k', v) then Some (S (default 0 (stat_of s c k)))
    else stat_of s c k.
Proof.
  unfold stat_of, record_error, matches; simpl.
  destruct (String.eqb_spec c' c) as [->|Hc]; simpl.
  - rewrite lookup_insert_eq; simpl.
    destruct (String.eqb_spec k' k) as [->|Hk].
    + rewrite lookup_insert_eq.
      destruct (stats s !! c); simpl; rewrite ?lookup_empty; reflexivity.
    + rewrite lookup_insert_ne by assumption.
      destruct (stats s !! c); simpl; rewrite ?lookup_empty; reflexivity.
  - now rewrite lookup_insert_ne by assumption.
Qed.

Lemma count_of_stat_of (s : summary) (c k : string) :
  count_of s c k = default 0 (stat_of s c k).
Proof. reflexivity. Qed.

Lemma keep_or_set_is_Some (cur : option string) (v : string) :
  is_Some (keep_or_set cur v).
Proof. destruct cur as [[|a w]|]; simpl; eauto. Qed.

Lemma well_formed_empty : well_formed empty_summary.
Proof.
  unfold well_formed, stat_of, example_of; simpl.
  repeat split; intros *; rewrite ?lookup_empty; simpl;
    try discriminate; intros [x Hx]; discriminate.
Qed.

Lemma well_formed_record_error (c' k' v : string) (s : summary) :
  well_formed s -> well_formed (record_error c' k' v s).
Proof.
  intros (Hs & He & Hn & Hse). unfold well_formed. repeat split.
  - intros c m. unfold record_error; simpl.
    destruct (decide (c' = c)) as [->|Hc].
    + rewrite lookup_insert_eq. intros [= <-]. apply insert_non_empty.
    + rewrite lookup_insert_ne by assumption. apply Hs.
  - intros c ex. unfold record_error; simpl.
    destruct (decide (c' = c)) as [->|Hc].
    + rewrite lookup_insert_eq. intros [= <-].
      destruct (default ∅ (examples s !! c) !! k') as [[|a w]|] eqn:E;
        try apply insert_non_empty.
      intros Hemp. rewrite Hemp, lookup_empty in E. discriminate.
    + rewrite lookup_insert_ne by assumption. apply He.
  - intros c k n. rewrite stat_of_record_error.
    destruct (matches c k (c', k', v)); [intros [= <-]; lia | apply Hn].
  - rewrite stat_of_record_error, example_of_record_error. unfold next_example.
    destruct (matches c k (c', k', v)); [|apply Hse].
    intros _. apply keep_or_set_is_Some.
  - rewrite stat_of_record_error, example_of_record_error. unfold next_example.
    destruct (matches c k (c', k', v)); [|apply Hse]. eauto.
Qed.

Lemma well_formed_fold (l : list violation) (s : summary) :
  well_formed s -> well_formed (foldl record_violation s l).
Proof.
  revert s. induction l as [|[[c k] v] l IH]; intros s H; simpl; [exact H|].
  apply IH, well_formed_record_error, H.
Qed.

Lemma well_formed_summary (this : CsvProcessorJS) :
  well_formed (get_error_summary this).
Proof.
  rewrite get_error_summary_violations.
  apply well_formed_fold, well_formed_empty.
Qed.

Lemma outer_keys_agree (s : summary) (c : string) :
  well_formed s -> (is_Some (stats s !! c) <-> is_Some (examples s !! c)).
Proof.
  intros (Hs & He & _ & Hse). split.
  - intros [m Hm]. destruct (map_choose m (Hs c m Hm)) as (k & n & Hk).
    assert (H : is_Some (stat_of s c k))
      by (unfold stat_of; rewrite Hm; simpl; eauto).
    apply Hse in H. unfold example_of in H.
    destruct (examples s !! c); [eauto | destruct H; discriminate].
  - intros [ex Hex]. destruct (map_choose ex (He c ex Hex)) as (k & w & Hk).
    assert (H : is_Some (example_of s c k))
      by (unfold example_of; rewrite Hex; simpl; eauto).
    apply Hse in H. unfold stat_of in H.
    destruct (stats s !! c); [eauto | destruct H; discriminate].
Qed.

(** X4: in the summary of a table with plain names (no header is a
    property name of [Object.prototype], no rule entry is named
    [__proto__]), a column is listed in [stats] exactly when it is
    listed in [examples], and never without a kind; a (column, kind)
    pair has a count exactly when it has an example; every stored count
    is at least one and is the number of violations of its pair over
    the whole table. *)
Theorem summary_counts_and_examples (this : CsvProcessorJS) (c k : string) :
  plain_names this ->
  let s := get_error_summary this in
  (is_Some (stats s !! c) <-> is_Some (examples s !! c))
  /\ (is_Some (stat_of s c k) <-> is_Some (example_of s c k))
  /\ stats s !! c <> Some ∅
  /\ stat_of s c k
     = (if decide (count_matching c k (violations this) = 0) then None
        else Some (count_matching c k (violations this))).
Proof.
  intros _ s. pose proof (well_formed_summary this) as Hwf. fold s in Hwf.
  split; [apply outer_keys_agree, Hwf|].
  destruct Hwf as (Hs & _ & Hn & Hse).
  split; [apply Hse|]. split.
  - intros H. now apply Hs in H.
  - pose proof (count_of_summary this c k) as Hc. fold s in Hc.
    rewrite count_of_stat_of in Hc.
    destruct (stat_of s c k) as [n|] eqn:E; simpl in Hc.
    + apply Hn in E. rewrite <- Hc. rewrite decide_False by lia. reflexivity.
    + rewrite <- Hc. reflexivity.
Qed.

Lemma summary_counts_and_examples_witness :
  let this := processor_of two_rows SAMPLE_RULES in
  plain_names this
  /\ (is_Some (stat_of (get_error_summary this) "age" NotANumber)
      <-> is_Some (example_of (get_error_summary this) "age" NotANumber))
  /\ stats (get_error_summary this) !! "age" <> Some ∅.
Proof.
  intros this.
  assert (Hp : plain_names this) by plain_names_holds.
  split; [exact Hp|].
  pose proof (summary_counts_and_examples this "age" NotANumber Hp) as H.
  split; [exact (proj1 (proj2 H)) | exact (proj1 (proj2 (proj2 H)))].
Defined.

(** ** Which pairs a summary lists *)

Lemma elem_of_cell_violations (this : CsvProcessorJS) (v : string) (j : nat)
    (x : violation) :
  x ∈ cell_violations this v j
  <-> exists (chain : list Rule.t) (r : Rule.t) (k : string),
        ruleMap this !! header_key this j = Some chain /\ r ∈ chain
        /\ errType r v = Some k /\ x = (header_key this j, k, v).
Proof.
  unfold cell_violations.
  destruct (ruleMap this !! header_key this j) as [chain|].
  - rewrite list_elem_of_omap. split.
    + intros (r & Hr & Hx). destruct (errType r v) as [k|] eqn:E; [|discriminate].
      injection Hx as <-. exists chain, r, k. auto.
    + intros (chain' & r & k & [= <-] & Hr & E & ->).
      exists r. split; [exact Hr|]. now rewrite E.
  - split; [intros H; inversion H|]. intros (chain & _ & _ & H & _). discriminate.
Qed.

Lemma elem_of_row_violations_from (this : CsvProcessorJS) (row : list string)
    (x : violation) :
  forall i0 : nat,
    x ∈ row_violations_from this row i0
    <-> exists (j : nat) (v : string),
          row !! j = Some v /\ x ∈ cell_violations this v (i0 + j).
Proof.
  induction row as [|w row IH]; intros i0; simpl.
  - split; [intros H; inversion H|]. intros (j & v & H & _). discriminate.
  - rewrite elem_of_app, IH. split.
    + intros [H|(j & v & Hj & H)].
      * exists 0, w. rewrite Nat.add_0_r. auto.
      * exists (S j), v. rewrite Nat.add_succ_r. auto.
    + intros ([|j] & v & Hj & H); simpl in Hj.
      * injection Hj as ->. rewrite Nat.add_0_r in H. auto.
      * right. exists j, v. rewrite Nat.add_succ_r in H. auto.
Qed.

Lemma elem_of_violations (this : CsvProcessorJS) (c k v : string) :
  (c, k, v) ∈ violations this <-> violating_cell this c k v.
Proof.
  unfold violations, violating_cell, cell.
  rewrite list_elem_of_In, in_flat_map. split.
  - intros (row & Hrow & Hx).
    apply list_elem_of_In, list_elem_of_lookup in Hrow as [i Hi].
    apply list_elem_of_In, elem_of_row_violations_from in Hx
      as (j & w & Hj & Hx).
    apply elem_of_cell_violations in Hx as (chain & r & k' & Hm & Hr & E & Hx).
    simpl in Hx. injection Hx as -> -> ->.
    exists i, j, chain, r. rewrite Hi; simpl. auto.
  - intros (i & j & chain & r & Hc & Hh & Hm & Hr & E).
    destruct (records this !! i) as [row|] eqn:Hi; [|discriminate]. simpl in Hc.
    exists row. split; [eapply list_elem_of_In, list_elem_of_lookup_2, Hi|].
    apply list_elem_of_In, elem_of_row_violations_from. exists j, v.
    split; [exact Hc|]. apply elem_of_cell_violations.
    exists chain, r, k. simpl. rewrite Hh. auto.
Qed.

Lemma count_matching_pos (c k : string) (l : list violation) :
  count_matching c k l <> 0 <-> exists v, (c, k, v) ∈ l.
Proof.
  unfold count_matching. split.
  - destruct (List.filter (matches c k) l) as [|[[c' k'] v] t] eqn:E;
      [simpl; congruence|]. intros _.
    assert (H : In (c', k', v) (List.filter (matches c k) l))
      by (rewrite E; left; reflexivity).
    apply filter_In in H as [Hin Hm]. apply matches_spec in Hm as [Hc Hk].
    simpl in Hc, Hk. subst. exists v. now apply list_elem_of_In.
  - intros [v Hv]. apply list_elem_of_In in Hv.
    assert (H : In (c, k, v) (List.filter (matches c k) l)).
    { apply filter_In. split; [exact Hv|]. now apply matches_spec. }
    destruct (List.filter (matches c k) l); [destruct H | simpl; lia].
Qed.

Lemma errType_in_kinds (r : Rule.t) (v k : string) :
  errType r v = Some k -> k ∈ kinds.
Proof.
  unfold errType, kinds.
  repeat match goal with
         | |- context [if ?b then _ else _] => destruct b
         end; intros [= <-]; in_list.
Qed.

(** X5: in the summary of a table with plain names, a (column, kind)
    pair is listed in [stats] exactly when some cell under a header of
    that name breaks a rule of the chain that [ruleMap] holds for the
    name, with that kind; the column then has a chain and the kind is
    one of the six. *)
Theorem stats_pair_iff_violating_cell (this : CsvProcessorJS) (c k : string) :
  plain_names this ->
  (is_Some (stat_of (get_error_summary this) c k)
   <-> exists v, violating_cell this c k v)
  /\ (is_Some (stat_of (get_error_summary this) c k)
      -> is_Some (ruleMap this !! c) /\ k ∈ kinds).
Proof.
  intros _.
  assert (Hiff : is_Some (stat_of (get_error_summary this) c k)
                 <-> exists v, violating_cell this c k v).
  { pose proof (count_of_summary this c k) as Hc.
    rewrite count_of_stat_of in Hc.
    destruct (well_formed_summary this) as (_ & _ & Hn & _).
    setoid_rewrite <- elem_of_violations. rewrite <- count_matching_pos.
    rewrite <- Hc. split.
    - intros [n Hs]. rewrite Hs. simpl. apply Hn in Hs. lia.
    - destruct (stat_of (get_error_summary this) c k); simpl; [eauto | congruence]. }
  split; [exact Hiff|]. intros H. apply Hiff in H as (v & H).
  destruct H as (i & j & chain & r & _ & _ & Hm & _ & E).
  split; [rewrite Hm; eauto | eapply errType_in_kinds, E].
Qed.

Lemma stats_pair_iff_violating_cell_witness :
  plain_names (processor_of two_rows SAMPLE_RULES)
  /\ is_Some (stat_of (get_error_summary (processor_of two_rows SAMPLE_RULES))
                      "age" NotANumber)
  /\ NotANumber ∈ kinds.
Proof.
  assert (Hp : plain_names (processor_of two_rows SAMPLE_RULES))
    by plain_names_holds.
  assert (H : is_Some (stat_of (get_error_summary
                                  (processor_of two_rows SAMPLE_RULES))
                               "age" NotANumber))
    by (vm_compute; eauto).
  split; [exact Hp|]. split; [exact H|].
  exact (proj2 (proj2 (stats_pair_iff_violating_cell
                         (processor_of two_rows SAMPLE_RULES)
                         "age" NotANumber Hp) H)).
Defined.

(** ** What the dashboard shows *)

Lemma foldl_add_sum_list (l : list nat) (a : nat) :
  foldl (fun a b => a + b) a l = a + sum_list l.
Proof.
  revert a. induction l as [|x l IH]; intros a; simpl; [lia|].
  rewrite IH. lia.
Qed.

Lemma weighted_sum_sum_list {A : Type} (g : A -> nat) (m : gmap string A) :
  weighted_sum g m = sum_list (g <$> (map_to_list m).*2).
Proof.
  unfold weighted_sum. rewrite map_fold_foldr.
  induction (map_to_list m) as [|[k a] l IH]; simpl; [reflexivity|].
  now rewrite IH.
Qed.

Lemma totalForCol_sum_kinds (m : gmap string nat) :
  Dashboard.totalForCol m = sum_kinds m.
Proof.
  unfold Dashboard.totalForCol, sum_kinds.
  rewrite foldl_add_sum_list, weighted_sum_sum_list. simpl.
  now rewrite list_fmap_id.
Qed.

Lemma length_le_sum_list {A : Type} (f : A -> nat) (l : list A) :
  (forall x, x ∈ l -> 1 <= f x) -> length l <= sum_list (f <$> l).
Proof.
  induction l as [|x l IH]; intros H; [simpl; lia|].
  rewrite fmap_cons. cbn [length sum_list sum_list_with].
  pose proof (H x (list_elem_of_here _ _)).
  assert (length l <= sum_list (f <$> l))
    by (apply IH; intros y Hy; apply H; now apply list_elem_of_further).
  unfold id in *. lia.
Qed.

Lemma violations_nil_iff (this : CsvProcessorJS) :
  violations this = [] <-> stats (get_error_summary this) = ∅.
Proof.
  split.
  - intros H. now rewrite get_error_summary_violations, H.
  - intros H. destruct (violations this) as [|[[c k] v] l] eqn:E; [reflexivity|].
    exfalso. pose proof (count_of_summary this c k) as Hc.
    unfold count_of in Hc. rewrite H, lookup_empty in Hc. simpl in Hc.
    symmetry in Hc. apply count_matching_pos in Hc; [exact Hc|].
    exists v. rewrite E. apply list_elem_of_here.
Qed.

(** X6: the summary of a table with plain names counts no error
    exactly when [stats] is empty, that is exactly when the dashboard
    has no column to list and shows its panel of no errors. *)
Theorem no_errors_iff_no_columns (this : CsvProcessorJS) :
  plain_names this ->
  (total_errors (get_error_summary this) = 0
   <-> stats (get_error_summary this) = ∅)
  /\ (Dashboard.columnNames (get_error_summary this) = []
      <-> total_errors (get_error_summary this) = 0).
Proof.
  intros _.
  assert (H1 : total_errors (get_error_summary this) = 0
               <-> stats (get_error_summary this) = ∅).
  { rewrite <- violations_nil_iff.
    rewrite get_error_summary_violations, fold_total_errors. simpl.
    destruct (violations this); simpl; split; intros; congruence || lia. }
  split; [exact H1|]. rewrite H1. unfold Dashboard.columnNames.
  rewrite <- map_to_list_empty_iff.
  destruct (map_to_list (stats (get_error_summary this)));
    simpl; split; intros; congruence.
Qed.

Lemma no_errors_iff_no_columns_witness :
  let this := processor_of (lines ["name,age"; "Bob,24"]) SAMPLE_RULES in
  plain_names this
  /\ (Dashboard.columnNames (get_error_summary this) = []
      <-> total_errors (get_error_summary this) = 0).
Proof.
  intros this.
  assert (Hp : plain_names this) by plain_names_holds.
  split; [exact Hp|].
  exact (proj2 (no_errors_iff_no_columns this Hp)).
Defined.

(** X7: for a table with plain names, the issue counts that the
    dashboard shows per column, each the sum of the counts of the
    column, add up to the total it shows; every listed column has at
    least one issue, so that there are at most as many columns affected
    as errors. *)
Theorem dashboard_totals (this : CsvProcessorJS) (c : string) :
  plain_names this ->
  let s := get_error_summary this in
  sum_list (Dashboard.totalForCol <$> (map_to_list (stats s)).*2)
  = total_errors s
  /\ (forall m, stats s !! c = Some m -> 1 <= Dashboard.totalForCol m)
  /\ Dashboard.totalColsAffected s <= total_errors s.
Proof.
  intros _ s.
  assert (Hsum : sum_list (Dashboard.totalForCol <$> (map_to_list (stats s)).*2)
                 = total_errors s).
  { subst s. rewrite total_errors_sum_counts. unfold sum_counts.
    rewrite weighted_sum_sum_list. f_equal.
    apply list_fmap_ext. intros _ m _. apply totalForCol_sum_kinds. }
  assert (Hpos : forall c' m, stats s !! c' = Some m -> 1 <= Dashboard.totalForCol m).
  { intros c' m Hm. destruct (well_formed_summary this) as (Hs & _ & Hn & _).
    fold s in Hs, Hn.
    destruct (map_choose m (Hs c' m Hm)) as (k & n & Hk).
    assert (Hst : stat_of s c' k = Some n)
      by (unfold stat_of; rewrite Hm; exact Hk).
    apply Hn in Hst. rewrite totalForCol_sum_kinds. unfold sum_kinds.
    rewrite (weighted_sum_delete (fun n => n) m k), Hk. simpl. lia. }
  split; [exact Hsum|]. split; [apply Hpos|].
  rewrite <- Hsum. unfold Dashboard.totalColsAffected, Dashboard.columnNames.
  assert (Hall : forall x, x ∈ map_to_list (stats s) -> 1 <= Dashboard.totalForCol x.2).
  { intros [c' m] Hx. apply elem_of_map_to_list in Hx. simpl. eapply Hpos, Hx. }
  rewrite length_fmap, <- (length_fmap snd).
  apply length_le_sum_list. intros m Hm.
  apply list_elem_of_fmap in Hm as ([c' m'] & -> & Hx). now apply (Hall (c', m')).
Qed.

Lemma dashboard_totals_witness :
  let this := processor_of SAMPLE_CSV SAMPLE_RULES in
  plain_names this
  /\ sum_list (Dashboard.totalForCol
                 <$> (map_to_list (stats (get_error_summary this))).*2)
     = total_errors (get_error_summary this)
  /\ Dashboard.totalColsAffected (get_error_summary this)
     <= total_errors (get_error_summary this).
Proof.
  intros this.
  assert (Hp : plain_names this) by plain_names_holds.
  split; [exact Hp|].
  pose proof (dashboard_totals this "age" Hp) as H.
  split; [exact (proj1 H) | exact (proj2 (proj2 H))].
Defined.

(** ** Summaries of runs of records *)

Lemma row_violations_from_same (this that : CsvProcessorJS) :
  headers that = headers this -> ruleMap that = ruleMap this ->
  forall (row : list string) (i : nat),
    row_violations_from that row i = row_violations_from this row i.
Proof.
  intros Hh Hm row. induction row as [|v row IH]; intros i; simpl; [reflexivity|].
  rewrite IH. f_equal.
  unfold cell_violations, header_key. now rewrite Hh, Hm.
Qed.

Lemma violations_with_records (this : CsvProcessorJS) (recs : list (list string)) :
  violations (with_records this recs)
  = flat_map (fun row => row_violations_from this row 0) recs.
Proof.
  unfold violations. simpl records. apply flat_map_ext. intros row.
  now apply row_violations_from_same.
Qed.

Lemma violations_app (this : CsvProcessorJS) (r1 r2 : list (list string)) :
  violations (with_records this (r1 ++ r2))
  = (violations (with_records this r1) ++ violations (with_records this r2))%list.
Proof. rewrite !violations_with_records. apply flat_map_app. Qed.

Lemma count_matching_app (c k : string) (l1 l2 : list violation) :
  count_matching c k (l1 ++ l2) = count_matching c k l1 + count_matching c k l2.
Proof. unfold count_matching. now rewrite List.filter_app, length_app. Qed.

Lemma merge_keep_or_set (cur x : option string) (v : string) :
  merge_example (keep_or_set cur v) x
  = merge_example cur (merge_example (Some v) x).
Proof.
  destruct cur as [[|a w]|]; simpl; try reflexivity;
    destruct v as [|b u]; simpl; try reflexivity; destruct x; reflexivity.
Qed.

Lemma foldl_next_example_merge (c k : string) (l : list violation) :
  forall cur : option string,
    foldl (next_example c k) cur l
    = merge_example cur (foldl (next_example c k) None l).
Proof.
  induction l as [|x l IH]; intros cur; simpl.
  - destruct cur as [[|a w]|]; reflexivity.
  - unfold next_example at 2 4. destruct (matches c k x); [|apply IH].
    rewrite IH, (IH (keep_or_set None x.2)). apply merge_keep_or_set.
Qed.

(** X8: for headers and rules with plain names, the summary of a table
    whose records are a first run followed by a second run is the merge
    of the summaries of the two runs under the same headers and rules:
    totals add, the counts of every pair add, and the example of a pair
    is the one of the first run when that is a non-empty string, and
    otherwise the one of the second run when it has one. *)
Theorem summary_of_appended_records
    (this : CsvProcessorJS) (r1 r2 : list (list string)) (c k : string) :
  plain_names this ->
  let s1 := get_error_summary (with_records this r1) in
  let s2 := get_error_summary (with_records this r2) in
  let s := get_error_summary (with_records this (r1 ++ r2)) in
  total_errors s = total_errors s1 + total_errors s2
  /\ count_of s c k = count_of s1 c k + count_of s2 c k
  /\ example_of s c k = merge_example (example_of s1 c k) (example_of s2 c k).
Proof.
  intros _ s1 s2 s. subst s1 s2 s. repeat split.
  - rewrite !get_error_summary_violations, !fold_total_errors, violations_app.
    rewrite length_app. simpl. lia.
  - rewrite !count_of_summary, violations_app. apply count_matching_app.
  - rewrite !get_error_summary_violations, !example_of_fold, violations_app.
    rewrite foldl_app. apply foldl_next_example_merge.
Qed.

Lemma summary_of_appended_records_witness :
  let this := processor_of email_column email_rules in
  plain_names this
  /\ example_of (get_error_summary (with_records this
                                      ([[EmptyString]] ++ [["bad"]])%list))
                "email" InvalidEmail
     = merge_example
         (example_of (get_error_summary (with_records this [[EmptyString]]))
                     "email" InvalidEmail)
         (example_of (get_error_summary (with_records this [["bad"]]))
                     "email" InvalidEmail).
Proof.
  intros this.
  assert (Hp : plain_names this) by plain_names_holds.
  split; [exact Hp|].
  exact (proj2 (proj2 (summary_of_appended_records
                         this [[EmptyString]] [["bad"]]
                         "email" InvalidEmail Hp))).
Defined.

(** ** Cells past the last header *)

Lemma cell_violations_past_headers (this : CsvProcessorJS) (v : string) (i : nat) :
  ruleMap this !! "undefined" = None -> length (headers this) <= i ->
  cell_violations this v i = [].
Proof.
  intros Hu Hi. unfold cell_violations, header_key.
  rewrite (lookup_ge_None_2 _ _ Hi). simpl. now rewrite Hu.
Qed.

Lemma row_violations_from_take (this : CsvProcessorJS) (row : list string) :
  ruleMap this !! "undefined" = None ->
  forall i : nat,
    row_violations_from this (take (length (headers this) - i) row) i
    = row_violations_from this row i.
Proof.
  intros Hu. induction row as [|v row IH]; intros i.
  - now rewrite take_nil.
  - destruct (length (headers this) - i) as [|m] eqn:E; simpl.
    + rewrite cell_violations_past_headers by (assumption || lia). simpl.
      rewrite <- IH. replace (length (headers this) - S i) with 0 by lia.
      reflexivity.
    + f_equal. rewrite <- IH. now replace (length (headers this) - S i) with m by lia.
Qed.

(** X9: unless the rule array names a column [undefined], the cells
    that a record has past the last header are never checked: the
    summary is the one of the table with every record cut to the number
    of headers. *)
Theorem cells_past_headers_ignored (this : CsvProcessorJS) :
  ruleMap this !! "undefined" = None ->
  get_error_summary this
  = get_error_summary
      (with_records this (map (take (length (headers this))) (records this))).
Proof.
  intros Hu. rewrite !get_error_summary_violations. f_equal.
  rewrite violations_with_records. unfold violations.
  rewrite flat_map_concat_map, flat_map_concat_map, map_map. f_equal.
  apply map_ext. intros row.
  rewrite <- (row_violations_from_take this row Hu 0). now rewrite Nat.sub_0_r.
Qed.

Lemma cells_past_headers_ignored_witness :
  let this := processor_of (lines ["name,age"; ",abc,,extra"]) SAMPLE_RULES in
  records this = [[EmptyString; "abc"; EmptyString; "extra"]]
  /\ get_error_summary this
     = get_error_summary (with_records this [[EmptyString; "abc"]]).
Proof.
  split; [reflexivity|].
  exact (cells_past_headers_ignored
           (processor_of (lines ["name,age"; ",abc,,extra"]) SAMPLE_RULES)
           eq_refl).
Defined.

(** ** The bulk fix and the summary *)

Lemma apply_bulk_fix_processor
    (this : CsvProcessorJS) (colName findVal replaceVal : string) :
  (apply_bulk_fix this colName findVal replaceVal).1
  = if (indexOf (headers this) colName =? -1)%Z then this
    else with_records this
           (map (fix_row (Z.to_nat (indexOf (headers this) colName))
                         findVal replaceVal) (records this)).
Proof.
  unfold apply_bulk_fix.
  destruct (indexOf (headers this) colName =? -1)%Z; reflexivity.
Qed.

Lemma filter_flat_map {A B : Type} (sel : B -> bool) (f : A -> list B)
    (l : list A) :
  List.filter sel (flat_map f l) = flat_map (fun x => List.filter sel (f x)) l.
Proof.
  induction l as [|x l IH]; simpl; [reflexivity|].
  now rewrite List.filter_app, IH.
Qed.

Lemma filter_row_violations_ext (sel : violation -> bool)
    (this : CsvProcessorJS) (row : list string) :
  forall (row' : list string) (i : nat),
    length row = length row' ->
    (forall j v v', row !! j = Some v -> row' !! j = Some v' ->
       List.filter sel (cell_violations this v (i + j))
       = List.filter sel (cell_violations this v' (i + j))) ->
    List.filter sel (row_violations_from this row i)
    = List.filter sel (row_violations_from this row' i).
Proof.
  induction row as [|v row IH]; intros [|v' row'] i Hlen H; simpl;
    try reflexivity; try discriminate.
  rewrite !List.filter_app. f_equal.
  - specialize (H 0 v v' eq_refl eq_refl). now rewrite Nat.add_0_r in H.
  - apply IH; [simpl in Hlen; lia|]. intros j w w' Hj Hj'.
    specialize (H (S j) w w' Hj Hj'). now rewrite Nat.add_succ_r in H.
Qed.

(** The violations that [sel] keeps are those of the table before the
    fix as soon as [sel] keeps none of the fixed column. *)
Lemma filter_violations_fix (sel : violation -> bool)
    (this : CsvProcessorJS) (colName findVal replaceVal : string) :
  (forall v, List.filter sel
               (cell_violations this v
                  (Z.to_nat (indexOf (headers this) colName))) = []) ->
  List.filter sel
    (violations (apply_bulk_fix this colName findVal replaceVal).1)
  = List.filter sel (violations this).
Proof.
  intros Hsel. rewrite apply_bulk_fix_processor.
  destruct (indexOf (headers this) colName =? -1)%Z; [reflexivity|].
  rewrite violations_with_records. unfold violations.
  rewrite !filter_flat_map, flat_map_concat_map, flat_map_concat_map, map_map.
  f_equal. apply map_ext. intros row. symmetry.
  apply filter_row_violations_ext.
  - unfold fix_row. case_decide; [now rewrite length_insert | reflexivity].
  - intros j v v' Hj Hj'. rewrite fix_row_lookup, Hj in Hj'. simpl in Hj'.
    injection Hj' as <-. case_decide as Hd; [|reflexivity].
    destruct Hd as [-> ->]. simpl. now rewrite !Hsel.
Qed.

Lemma filter_all {A : Type} (l : list A) : List.filter (fun _ => true) l = l.
Proof. induction l as [|x l IH]; simpl; [reflexivity | now rewrite IH]. Qed.

Lemma cell_violations_column (this : CsvProcessorJS) (v : string) (j : nat)
    (x : violation) :
  x ∈ cell_violations this v j -> x.1.1 = header_key this j.
Proof.
  intros (chain & r & k & _ & _ & _ & ->)%elem_of_cell_violations. reflexivity.
Qed.

Lemma filter_matches_other_column (this : CsvProcessorJS) (v c k : string)
    (j : nat) :
  header_key this j <> c ->
  List.filter (matches c k) (cell_violations this v j) = [].
Proof.
  intros Hne.
  destruct (List.filter (matches c k) (cell_violations this v j))
    as [|x t] eqn:E; [reflexivity|]. exfalso.
  assert (H : In x (List.filter (matches c k) (cell_violations this v j)))
    by (rewrite E; left; reflexivity).
  apply filter_In in H as [Hin Hm]. apply matches_spec in Hm as [Hc _].
  apply list_elem_of_In, cell_violations_column in Hin. congruence.
Qed.

Lemma foldl_next_example_filter (c k : string) (l : list violation) :
  forall cur : option string,
    foldl (next_example c k) cur (List.filter (matches c k) l)
    = foldl (next_example c k) cur l.
Proof.
  induction l as [|x l IH]; intros cur; simpl; [reflexivity|].
  destruct (matches c k x) eqn:E; simpl.
  - apply IH.
  - rewrite IH. unfold next_example at 3. now rewrite E.
Qed.

Lemma header_key_indexOf (this : CsvProcessorJS) (colName : string) :
  indexOf (headers this) colName <> (-1)%Z ->
  header_key this (Z.to_nat (indexOf (headers this) colName)) = colName.
Proof.
  intros H. unfold header_key. now rewrite (indexOf_lookup _ _ H).
Qed.

(** X10: on a table with plain names, a bulk fix in one column leaves
    the count and the example of every pair of any other column name as
    they were. *)
Theorem apply_bulk_fix_other_columns
    (this : CsvProcessorJS) (colName findVal replaceVal c k : string) :
  plain_names this ->
  c <> colName ->
  let this' := (apply_bulk_fix this colName findVal replaceVal).1 in
  count_of (get_error_summary this') c k = count_of (get_error_summary this) c k
  /\ example_of (get_error_summary this') c k
     = example_of (get_error_summary this) c k.
Proof.
  intros _ Hne this'.
  assert (Hf : List.filter (matches c k) (violations this')
               = List.filter (matches c k) (violations this)).
  { subst this'.
    destruct (Z.eq_dec (indexOf (headers this) colName) (-1)%Z) as [E|E].
    - rewrite apply_bulk_fix_processor, E. reflexivity.
    - apply filter_violations_fix. intros v.
      apply filter_matches_other_column.
      rewrite header_key_indexOf by assumption. congruence. }
  split.
  - rewrite !count_of_summary. unfold count_matching. now rewrite Hf.
  - rewrite !get_error_summary_violations, !example_of_fold.
    rewrite <- foldl_next_example_filter, Hf. apply foldl_next_example_filter.
Qed.

Lemma apply_bulk_fix_other_columns_witness :
  let this := processor_of SAMPLE_CSV SAMPLE_RULES in
  let this' := (apply_bulk_fix this "role" "unknown" "guest").1 in
  plain_names this
  /\ "age" <> "role"
  /\ count_of (get_error_summary this') "age" NotANumber
     = count_of (get_error_summary this) "age" NotANumber.
Proof.
  intros this this'.
  assert (Hp : plain_names this) by plain_names_holds.
  split; [exact Hp|]. split; [discriminate|].
  exact (proj1 (apply_bulk_fix_other_columns
                  this "role" "unknown" "guest" "age" NotANumber
                  Hp ltac:(discriminate))).
Defined.

(** X11: a bulk fix in a column that has no rule chain changes the
    cells and not the summary; the count that it returns is the count
    before the fix. *)
Theorem apply_bulk_fix_unruled_column
    (this : CsvProcessorJS) (colName findVal replaceVal : string) :
  ruleMap this !! colName = None ->
  get_error_summary (apply_bulk_fix this colName findVal replaceVal).1
  = get_error_summary this
  /\ (apply_bulk_fix this colName findVal replaceVal).2
     = count_total_errors this.
Proof.
  intros Hnone.
  assert (Hs : get_error_summary (apply_bulk_fix this colName findVal replaceVal).1
               = get_error_summary this).
  { rewrite !get_error_summary_violations. f_equal.
    destruct (Z.eq_dec (indexOf (headers this) colName) (-1)%Z) as [E|E].
    - rewrite apply_bulk_fix_processor, E. reflexivity.
    - rewrite <- (filter_all (violations this)), <- (filter_all (violations _)).
      apply filter_violations_fix. intros v. rewrite filter_all.
      unfold cell_violations. rewrite header_key_indexOf by assumption.
      now rewrite Hnone. }
  split; [exact Hs|].
  unfold count_total_errors. rewrite <- Hs. unfold apply_bulk_fix.
  destruct (indexOf (headers this) colName =? -1)%Z; reflexivity.
Qed.

Lemma apply_bulk_fix_unruled_column_witness :
  let this := processor_of SAMPLE_CSV SAMPLE_RULES in
  ruleMap this !! "id" = None
  /\ cell (apply_bulk_fix this "id" "4" "four").1 3 0 = Some "four"
  /\ get_error_summary (apply_bulk_fix this "id" "4" "four").1
     = get_error_summary this.
Proof.
  split; [reflexivity|]. split; [reflexivity|].
  exact (proj1 (apply_bulk_fix_unruled_column
                  (processor_of SAMPLE_CSV SAMPLE_RULES) "id" "4" "four"
                  eq_refl)).
Defined.

(** ** Repeating and undoing a bulk fix *)

Lemma fix_row_idem (c : nat) (findVal replaceVal : string) (row : list string) :
  fix_row c findVal replaceVal (fix_row c findVal replaceVal row)
  = fix_row c findVal replaceVal row.
Proof.
  unfold fix_row. destruct (decide (row !! c = Some findVal)) as [H|H].
  - destruct (decide (<[c:=replaceVal]> row !! c = Some findVal));
      [apply list_insert_insert_eq | reflexivity].
  - now rewrite decide_False.
Qed.

Lemma fix_row_undo (c : nat) (findVal replaceVal : string) (row : list string) :
  row !! c <> Some replaceVal ->
  fix_row c replaceVal findVal (fix_row c findVal replaceVal row) = row.
Proof.
  intros Hr. unfold fix_row.
  destruct (decide (row !! c = Some findVal)) as [H|H].
  - rewrite list_lookup_insert_eq by (eapply lookup_lt_Some; eauto).
    rewrite decide_True by reflexivity.
    rewrite list_insert_insert_eq. now apply list_insert_id.
  - now rewrite decide_False.
Qed.

Lemma with_records_same (this : CsvProcessorJS) :
  with_records this (records this) = this.
Proof. destruct this; reflexivity. Qed.

(** X12: applying the same bulk fix a second time changes nothing and
    returns the same count, whatever the three arguments are. *)
Theorem apply_bulk_fix_idempotent
    (this : CsvProcessorJS) (colName findVal replaceVal : string) :
  let once := apply_bulk_fix this colName findVal replaceVal in
  apply_bulk_fix once.1 colName findVal replaceVal = once.
Proof.
  intros once. subst once. unfold apply_bulk_fix.
  destruct (indexOf (headers this) colName =? -1)%Z eqn:E; simpl.
  - now rewrite E.
  - rewrite E. rewrite map_map.
    rewrite (map_ext _ _ (fix_row_idem _ findVal replaceVal)). reflexivity.
Qed.

(** X13: when no cell of the column holds [replaceVal] beforehand, the
    opposite fix undoes a bulk fix: the table is as it was. *)
Theorem apply_bulk_fix_undo
    (this : CsvProcessorJS) (colName findVal replaceVal : string) :
  Forall (fun row =>
            row !! Z.to_nat (indexOf (headers this) colName) <> Some replaceVal)
         (records this) ->
  (apply_bulk_fix (apply_bulk_fix this colName findVal replaceVal).1
                  colName replaceVal findVal).1
  = this.
Proof.
  intros Hall. rewrite (apply_bulk_fix_processor this).
  destruct (indexOf (headers this) colName =? -1)%Z eqn:E.
  - rewrite apply_bulk_fix_processor, E. reflexivity.
  - rewrite apply_bulk_fix_processor. simpl headers. rewrite E. simpl records.
    rewrite map_map.
    transitivity (with_records this (records this));
      [|apply with_records_same].
    unfold with_records; simpl. f_equal.
    transitivity (map (fun row : list string => row) (records this));
      [|apply map_id].
    apply map_ext_Forall. eapply Forall_impl; [exact Hall|].
    intros row Hrow. now apply fix_row_undo.
Qed.

Lemma apply_bulk_fix_undo_witness :
  let this := processor_of SAMPLE_CSV SAMPLE_RULES in
  cell (apply_bulk_fix this "role" "unknown" "visitor").1 3 4 = Some "visitor"
  /\ (apply_bulk_fix (apply_bulk_fix this "role" "unknown" "visitor").1
                     "role" "visitor" "unknown").1
     = this.
Proof.
  split; [reflexivity|].
  apply (apply_bulk_fix_undo (processor_of SAMPLE_CSV SAMPLE_RULES)
           "role" "unknown" "visitor").
  vm_compute. repeat constructor; discriminate.
Defined.

(** ** The shape of a parsed table *)

Section SplitFacts.

Variable sep : ascii.

Lemma split_no_sep (s : string) :
  Forall (fun w => contains sep w = false) (split sep s).
Proof.
  induction s as [|c r IH]; simpl; [repeat constructor|].
  destruct (Ascii.eqb c sep) eqn:E; [constructor; [reflexivity | exact IH]|].
  destruct (split sep r) as [|w ws]; [repeat constructor; simpl; now rewrite E|].
  inversion IH as [|? ? Hw Hws]; subst.
  constructor; [simpl; now rewrite E, Hw | exact Hws].
Qed.

Lemma split_keeps_absent (c : ascii) (s : string) :
  contains c s = false -> Forall (fun w => contains c w = false) (split sep s).
Proof.
  induction s as [|d r IH]; simpl; [repeat constructor|].
  intros [Hd Hr]%orb_false_iff. specialize (IH Hr).
  destruct (Ascii.eqb d sep); [constructor; [reflexivity | exact IH]|].
  destruct (split sep r) as [|w ws]; [repeat constructor; simpl; now rewrite Hd|].
  inversion IH as [|? ? Hw Hws]; subst.
  constructor; [simpl; now rewrite Hd, Hw | exact Hws].
Qed.

Lemma length_split (s : string) :
  length (split sep s) = S (count_char sep s).
Proof.
  induction s as [|c r IH]; simpl; [reflexivity|].
  destruct (Ascii.eqb c sep); simpl; [now rewrite IH|].
  destruct (split sep r); simpl in *; lia.
Qed.

Lemma split_absent (s : string) :
  contains sep s = false -> split sep s = [s].
Proof.
  induction s as [|c r IH]; simpl; [reflexivity|].
  intros [Hc Hr]%orb_false_iff. rewrite Hc, (IH Hr). reflexivity.
Qed.

Lemma split_app_sep (x r : string) :
  contains sep x = false ->
  split sep (x +:+ String sep r) = x :: split sep r.
Proof.
  induction x as [|c x IH]; simpl.
  - intros _. now rewrite Ascii.eqb_refl.
  - intros [Hc Hx]%orb_false_iff. rewrite Hc, (IH Hx). reflexivity.
Qed.

(** Splitting what was joined gives the list back when no element holds
    the separator. *)
Lemma split_join (l : list string) :
  l <> [] -> Forall (fun w => contains sep w = false) l ->
  split sep (join sep l) = l.
Proof.
  induction l as [|x [|y l] IH]; intros Hne Hall; [congruence| |].
  - simpl. apply split_absent. now inversion Hall.
  - inversion Hall as [|? ? Hx Hrest]; subst.
    change (join sep (x :: y :: l)) with (x +:+ String sep (join sep (y :: l))).
    rewrite split_app_sep by assumption. f_equal.
    apply IH; [discriminate | assumption].
Qed.

Lemma contains_app (c : ascii) (x y : string) :
  contains c (x +:+ y) = contains c x || contains c y.
Proof.
  induction x as [|d x IH]; simpl; [reflexivity|].
  rewrite IH. now rewrite orb_assoc.
Qed.

Lemma contains_join (c : ascii) (l : list string) :
  Ascii.eqb sep c = false ->
  Forall (fun w => contains c w = false) l ->
  contains c (join sep l) = false.
Proof.
  intros Hc. induction l as [|x [|y l] IH]; intros Hall; [reflexivity| |].
  - simpl. now inversion Hall.
  - inversion Hall as [|? ? Hx Hrest]; subst.
    change (join sep (x :: y :: l)) with (x +:+ String sep (join sep (y :: l))).
    rewrite contains_app, Hx. simpl. rewrite Hc. now apply IH.
Qed.

End SplitFacts.

(** X14: in the table that the constructor builds, no header and no
    cell holds a comma or a line feed, every row has at least one
    field, and there is one record for each line feed of the trimmed
    text. *)
Theorem parsed_table_shape (csvData : string) (rs : list Entry.t) :
  let this := processor_of csvData rs in
  Forall (Forall clean_cell) (rows this)
  /\ Forall (fun row => row <> []) (rows this)
  /\ length (records this) = count_char newline (trim csvData).
Proof.
  intros this. subst this. rewrite rows_processor_of.
  unfold parse_rows. repeat split.
  - apply Forall_map.
    eapply Forall_impl; [apply (split_no_sep newline)|]. intros line Hline.
    pose proof (split_no_sep comma line) as H1.
    pose proof (split_keeps_absent comma newline line Hline) as H2.
    revert H1 H2. generalize (split comma line). intros l H1.
    induction H1 as [|w l Hw _ IH]; intros H2; [constructor|].
    inversion H2; subst. constructor; [split; assumption | now apply IH].
  - apply Forall_map, Forall_forall. intros line _. apply split_nonempty.
  - unfold processor_of; simpl. rewrite length_drop.
    unfold parse_rows. rewrite length_map, length_split. lia.
Qed.

(** X15: the export of a table whose fields hold neither a comma nor a
    line feed and whose rows have at least one field, for instance a
    parsed table after bulk fixes that write no such character, is
    parsed back into the same headers and records, as long as the
    exported text does not start or end with white space. *)
Theorem export_then_parse (this : CsvProcessorJS) (rs : list Entry.t) :
  Forall (Forall clean_cell) (rows this) ->
  Forall (fun row => row <> []) (rows this) ->
  trim (valid (generate_split_export this)) = valid (generate_split_export this) ->
  headers (processor_of (valid (generate_split_export this)) rs) = headers this
  /\ records (processor_of (valid (generate_split_export this)) rs)
     = records this.
Proof.
  intros Hclean Hne Htrim.
  assert (Hrows : parse_rows (valid (generate_split_export this)) = rows this).
  { unfold parse_rows. rewrite Htrim.
    change (valid (generate_split_export this))
      with (join newline (valid_lines this)).
    rewrite valid_lines_rows, split_join.
    - rewrite <- (map_id (rows this)) at 2. rewrite map_map.
      apply map_ext_Forall. rewrite Forall_forall in Hclean, Hne.
      apply Forall_forall. intros row Hrow.
      apply split_join; [now apply Hne|].
      eapply Forall_impl; [apply (Hclean row Hrow)|]. now intros w [Hw _].
    - discriminate.
    - apply Forall_map. eapply Forall_impl; [exact Hclean|]. intros row Hrow.
      apply contains_join; [reflexivity|].
      eapply Forall_impl; [exact Hrow|]. now intros w [_ Hw]. }
  unfold processor_of. cbn [headers records]. rewrite Hrows.
  split; reflexivity.
Qed.

Lemma export_then_parse_witness :
  let this := (apply_bulk_fix (processor_of SAMPLE_CSV SAMPLE_RULES)
                              "role" "unknown" "guest").1 in
  cell this 3 4 = Some "guest"
  /\ records (processor_of (valid (generate_split_export this)) SAMPLE_RULES)
     = records this.
Proof.
  split; [reflexivity|].
  refine (proj2 (export_then_parse
                   (apply_bulk_fix (processor_of SAMPLE_CSV SAMPLE_RULES)
                                   "role" "unknown" "guest").1
                   SAMPLE_RULES _ _ _)).
  - unfold clean_cell. apply (bool_decide_unpack _). vm_compute. exact I.
  - apply (bool_decide_unpack _). vm_compute. exact I.
  - vm_compute. reflexivity.
Defined.

(** ** The quick fix of the dashboard *)

Lemma cell_apply_bulk_fix
    (this : CsvProcessorJS) (colName findVal replaceVal : string) (i j : nat) :
  cell (apply_bulk_fix this colName findVal replaceVal).1 i j
  = (fun v => if decide (Z.of_nat j = indexOf (headers this) colName
                         /\ v = findVal)
              then replaceVal else v) <$> cell this i j.
Proof.
  rewrite apply_bulk_fix_processor.
  pose proof (indexOf_ge (headers this) colName) as Hge.
  destruct (Z.eqb_spec (indexOf (headers this) colName) (-1)) as [E|E].
  - destruct (cell this i j) as [v|]; simpl; [|reflexivity].
    rewrite decide_False; [reflexivity | lia].
  - unfold cell; simpl. change (map ?f ?l) with (f <$> l).
    rewrite list_lookup_fmap.
    destruct (records this !! i) as [row|]; simpl; [|reflexivity].
    rewrite fix_row_lookup. destruct (row !! j) as [v|]; simpl; [|reflexivity].
    destruct (decide (j = Z.to_nat (indexOf (headers this) colName)
                      /\ v = findVal)) as [[H1 H2]|H].
    + rewrite decide_True; [reflexivity | split; [lia | assumption]].
    + rewrite decide_False; [reflexivity|]. intros [H1 H2]. apply H.
      split; [lia | assumption].
Qed.

Lemma refreshSummary_processor (st : Dashboard.state) :
  Dashboard.processor (Dashboard.refreshSummary st) = Dashboard.processor st.
Proof.
  unfold Dashboard.refreshSummary.
  destruct (pass_throws (Dashboard.processor st)); reflexivity.
Qed.

(** X17: the quick fix skips the call when the find input is missing or
    empty, and otherwise looks for a non-empty string: a cell that is
    empty before [handleApplyFix] is empty after it, in every column. *)
Theorem handleApplyFix_keeps_empty_cells
    (col : string) (st : Dashboard.state) (i j : nat) :
  cell (Dashboard.processor st) i j = Some EmptyString ->
  cell (Dashboard.processor (Dashboard.handleApplyFix col st)) i j
  = Some EmptyString.
Proof.
  intros Hc. unfold Dashboard.handleApplyFix.
  destruct (Dashboard.fixInputs st !! col ≫= fun o => o !! "find")
    as [[|a w]|]; [exact Hc| |exact Hc].
  cbv zeta. unfold apply_bulk_fix_result. cbn [fst snd].
  match goal with
  | |- cell (Dashboard.processor
               match ?r with inl _ => _ | inr _ => _ end) _ _ = _ =>
      destruct r
  end; cbn [Dashboard.processor Dashboard.updateFixInput];
    rewrite ?refreshSummary_processor; cbn [Dashboard.processor];
    rewrite cell_apply_bulk_fix, Hc; simpl;
    (rewrite decide_False; [reflexivity|]); intros [_ H]; discriminate H.
Qed.

Lemma handleApplyFix_keeps_empty_cells_witness :
  cell (Dashboard.processor sample_dashboard) 3 1 = Some EmptyString
  /\ cell (Dashboard.processor
             (Dashboard.handleApplyFix "name"
                (Dashboard.updateFixInput "name" "replace" "Dan"
                   sample_dashboard))) 3 1
     = Some EmptyString.
Proof.
  split; [reflexivity|].
  apply (handleApplyFix_keeps_empty_cells "name"
           (Dashboard.updateFixInput "name" "replace" "Dan" sample_dashboard)
           3 1).
  reflexivity.
Defined.

(** ** The rule builder *)

Lemma entry_eta (e : Entry.t) : Entry.mk (Entry.column e) (Entry.rules e) = e.
Proof. destruct e; reflexivity. Qed.

(** X18: in the rule builder, removing the rule that was just added to
    a column gives the rule array back, and so does removing the column
    that was just added. *)
Theorem add_then_remove_rule
    (colIdx : nat) (ruleType : string) (parsedRules : list Entry.t)
    (e : Entry.t) :
  parsedRules !! colIdx = Some e ->
  (App.addRuleToColumn colIdx ruleType parsedRules
     ≫= App.removeRuleFromColumn colIdx (length (Entry.rules e)))
  = Some parsedRules
  /\ App.removeColumnRule (length parsedRules) (App.addColumnRule parsedRules)
     = parsedRules.
Proof.
  intros He. split.
  - unfold App.addRuleToColumn. rewrite He. simpl.
    unfold App.removeRuleFromColumn.
    rewrite list_lookup_insert_eq by (eapply lookup_lt_Some; eauto). simpl.
    rewrite delete_middle, app_nil_r, list_insert_insert_eq, entry_eta.
    now rewrite list_insert_id.
  - unfold App.removeColumnRule, App.addColumnRule.
    rewrite delete_middle. apply app_nil_r.
Qed.

Lemma add_then_remove_rule_witness :
  SAMPLE_RULES !! 1 = Some (Entry.mk "age"
                              [Rule.mk "notempty" None None [] None;
                               Rule.mk "number" (Some (of_Z 18))
                                       (Some (of_Z 100)) [] None])
  /\ (App.addRuleToColumn 1 "regex" SAMPLE_RULES
        ≫= App.removeRuleFromColumn 1 2) = Some SAMPLE_RULES.
Proof.
  split; [reflexivity|].
  exact (proj1 (add_then_remove_rule 1 "regex" SAMPLE_RULES _ eq_refl)).
Defined.

Lemma same_but_regex_insert (m1 m2 : gmap string (list Rule.t)) (c : string)
    (l1 l2 : list Rule.t) :
  same_but_regex m1 m2 ->
  filter (fun r => is_regex r = false) l1
  = filter (fun r => is_regex r = false) l2 ->
  same_but_regex (<[c := l1]> m1) (<[c := l2]> m2).
Proof.
  intros Hm Hl c'. destruct (decide (c = c')) as [->|Hne].
  - rewrite !lookup_insert_eq. simpl. now rewrite Hl.
  - rewrite !lookup_insert_ne by assumption. apply Hm.
Qed.

Lemma same_but_regex_foldl (l : list Entry.t) :
  forall m1 m2 : gmap string (list Rule.t),
    same_but_regex m1 m2 ->
    same_but_regex
      (foldl (fun m r => <[Entry.column r := Entry.rules r]> m) m1 l)
      (foldl (fun m r => <[Entry.column r := Entry.rules r]> m) m2 l).
Proof.
  induction l as [|e l IH]; intros m1 m2 H; simpl; [exact H|].
  apply IH. now apply same_but_regex_insert.
Qed.

Lemma same_but_regex_add (colIdx : nat) (rs rs' : list Entry.t) :
  App.addRuleToColumn colIdx "regex" rs = Some rs' ->
  same_but_regex (build_ruleMap rs') (build_ruleMap rs).
Proof.
  unfold App.addRuleToColumn. destruct (rs !! colIdx) as [e|] eqn:He;
    [|discriminate]. intros [= <-].
  rewrite <- (take_drop_middle rs colIdx e He) at 2.
  rewrite <- (take_drop_middle rs colIdx e He) at 1.
  rewrite insert_app_r_alt by (rewrite length_take; lia).
  replace (colIdx - length (take colIdx rs)) with 0
    by (rewrite length_take; apply lookup_lt_Some in He; lia).
  simpl. unfold build_ruleMap. rewrite !foldl_app. simpl.
  apply same_but_regex_foldl, same_but_regex_insert; [intros c; reflexivity|].
  rewrite filter_app, filter_cons_False, filter_nil by (vm_compute; discriminate).
  apply app_nil_r.
Qed.

Lemma check_cell_same_but_regex (this that : CsvProcessorJS) :
  headers that = headers this ->
  same_but_regex (ruleMap that) (ruleMap this) ->
  forall (s : summary) (v : string) (i : nat),
    check_cell that s v i = check_cell this s v i.
Proof.
  intros Hh Hm s v i. unfold check_cell, header_key. rewrite Hh.
  specialize (Hm (default "undefined" (headers this !! i))).
  destruct (ruleMap that !! _) as [l1|], (ruleMap this !! _) as [l2|];
    simpl in Hm; try discriminate; [|reflexivity].
  injection Hm as Hm.
  rewrite <- (foldl_check_rule_filter _ _ l1), <- (foldl_check_rule_filter _ _ l2).
  now rewrite Hm.
Qed.

(** X19: adding a rule of type [regex] to a column in the rule builder
    never changes the outcome of the validation: for every text, the
    summary under the new rule array is the summary under the old one. *)
Theorem added_regex_rule_changes_nothing
    (colIdx : nat) (parsedRules rules' : list Entry.t) (csvData : string) :
  App.addRuleToColumn colIdx "regex" parsedRules = Some rules' ->
  get_error_summary (processor_of csvData rules')
  = get_error_summary (processor_of csvData parsedRules).
Proof.
  intros Hadd. unfold get_error_summary. simpl records.
  apply foldl_ext_fun. intros s row. unfold check_row.
  apply forEach_from_ext. intros s' v i.
  apply check_cell_same_but_regex; [reflexivity|].
  simpl. eapply same_but_regex_add, Hadd.
Qed.

Lemma added_regex_rule_changes_nothing_witness :
  App.addRuleToColumn 0 "regex" SAMPLE_RULES
  = Some (<[0 := Entry.mk "name" [Rule.mk "notempty" None None [] None;
                                 App.new_rule "regex"]]> SAMPLE_RULES)
  /\ get_error_summary
       (processor_of SAMPLE_CSV
          (<[0 := Entry.mk "name" [Rule.mk "notempty" None None [] None;
                                  App.new_rule "regex"]]> SAMPLE_RULES))
     = get_error_summary (processor_of SAMPLE_CSV SAMPLE_RULES).
Proof.
  split; [reflexivity|].
  apply (added_regex_rule_changes_nothing 0 SAMPLE_RULES _ SAMPLE_CSV).
  reflexivity.
Defined.

(** ** The header suggestions *)

Lemma first_line_cons (c : ascii) (r : string) :
  first_line (String c r)
  = if Ascii.eqb c newline then EmptyString else String c (first_line r).
Proof.
  unfold first_line. simpl. destruct (Ascii.eqb c newline); [reflexivity|].
  pose proof (split_nonempty newline r) as H.
  destruct (split newline r); [congruence | reflexivity].
Qed.

Lemma first_line_no_newline (s : string) :
  contains newline (first_line s) = false.
Proof.
  induction s as [|c r IH]; [reflexivity|]. rewrite first_line_cons.
  destruct (Ascii.eqb c newline) eqn:E; [reflexivity|]. simpl. now rewrite E.
Qed.

Lemma first_line_decomp (s : string) :
  s = first_line s \/ exists rest, s = first_line s +:+ String newline rest.
Proof.
  induction s as [|c r IH]; [left; reflexivity|]. rewrite first_line_cons.
  destruct (Ascii.eqb_spec c newline) as [->|Hne].
  - right. exists r. reflexivity.
  - destruct IH as [IH|[rest IH]].
    + left. now rewrite <- IH.
    + right. exists rest.
      change (String c r = String c (first_line r +:+ String newline rest)).
      now rewrite <- IH.
Qed.

Lemma first_line_app (x r : string) :
  contains newline x = false -> first_line (x +:+ String newline r) = x.
Proof. intros H. unfold first_line. now rewrite split_app_sep. Qed.

Lemma first_line_absent (s : string) :
  contains newline s = false -> first_line s = s.
Proof. intros H. unfold first_line. now rewrite split_absent. Qed.

Lemma str_indexOf_ge (c : ascii) (s : string) : (-1 <= App.str_indexOf c s)%Z.
Proof.
  induction s as [|d r IH]; simpl; [lia|].
  destruct (Ascii.eqb d c); [lia|].
  destruct (Z.eqb_spec (App.str_indexOf c r) (-1)); lia.
Qed.

Lemma str_indexOf_absent (c : ascii) (s : string) :
  App.str_indexOf c s = (-1)%Z -> contains c s = false.
Proof.
  induction s as [|d r IH]; simpl; [reflexivity|].
  pose proof (str_indexOf_ge c r).
  destruct (Ascii.eqb d c); [discriminate|]. simpl.
  destruct (Z.eqb_spec (App.str_indexOf c r) (-1)) as [E|E]; [auto | lia].
Qed.

Lemma slice_to_first_line (s : string) :
  App.str_indexOf newline s <> (-1)%Z ->
  App.slice_to s (App.str_indexOf newline s) = first_line s.
Proof.
  unfold App.slice_to. induction s as [|c r IH]; simpl; [congruence|].
  rewrite first_line_cons. pose proof (str_indexOf_ge newline r).
  destruct (Ascii.eqb c newline); [reflexivity|].
  destruct (Z.eqb_spec (App.str_indexOf newline r) (-1)) as [E|E]; [congruence|].
  intros _.
  replace (Z.to_nat (App.str_indexOf newline r + 1))
    with (S (Z.to_nat (App.str_indexOf newline r))) by lia.
  simpl. now rewrite IH.
Qed.

Lemma trimEnd_head (c : ascii) (r : string) :
  trimEnd (String c r) = EmptyString
  \/ exists t, trimEnd (String c r) = String c t.
Proof.
  simpl. destruct (trimEnd r); [destruct (is_ws c)|]; eauto.
Qed.

Lemma trimEnd_app (x y : string) :
  trimEnd (x +:+ y)
  = match trimEnd y with
    | EmptyString => trimEnd x
    | String _ _ => x +:+ trimEnd y
    end.
Proof.
  induction x as [|c x IH].
  - change (EmptyString +:+ y) with y. destruct (trimEnd y); reflexivity.
  - change (String c x +:+ y) with (String c (x +:+ y)).
    change (trimEnd (String c (x +:+ y)))
      with (match trimEnd (x +:+ y) with
            | EmptyString => if is_ws c then EmptyString else String c EmptyString
            | r' => String c r'
            end).
    rewrite IH. destruct (trimEnd y) as [|d t]; [reflexivity|].
    destruct x; reflexivity.
Qed.

Lemma trim_fixed_parts (s : string) :
  trim s = s -> starts_clean s /\ trimEnd s = s.
Proof.
  intros H. assert (Hc : starts_clean s).
  { rewrite <- H. apply trimEnd_clean, trimStart_clean. }
  split; [exact Hc|]. unfold trim in H.
  now rewrite (trimStart_of_clean s Hc) in H.
Qed.

Lemma first_line_trim (s : string) :
  first_line s <> EmptyString ->
  trim (first_line s) = first_line s ->
  first_line (trim s) = first_line s.
Proof.
  intros Hne Hfix. apply trim_fixed_parts in Hfix as [Hclean Hend].
  assert (Hs : starts_clean s).
  { destruct s as [|c r]; [exact I|]. rewrite first_line_cons in Hne, Hclean.
    destruct (Ascii.eqb c newline); [congruence | exact Hclean]. }
  unfold trim. rewrite (trimStart_of_clean s Hs).
  pose proof (first_line_no_newline s) as Hno.
  destruct (first_line_decomp s) as [Hd|[rest Hd]].
  - rewrite Hd at 1. rewrite Hend. now apply first_line_absent.
  - rewrite Hd at 1. rewrite trimEnd_app.
    destruct (trimEnd_head newline rest) as [E|[t E]]; rewrite E.
    + rewrite Hend. now apply first_line_absent.
    + now apply first_line_app.
Qed.

Lemma headers_first_line (csvData : string) (rs : list Entry.t) :
  headers (processor_of csvData rs) = split comma (first_line (trim csvData)).
Proof.
  unfold processor_of, parse_rows, first_line; simpl.
  pose proof (split_nonempty newline (trim csvData)) as H.
  destruct (split newline (trim csvData)); [congruence | reflexivity].
Qed.

(** X20: the headers that [getHeaders] suggests to the rule builder are
    the headers that the processor validates against, as soon as the
    first line of the text is not empty and has no white space at
    either end. *)
Theorem getHeaders_agree (csvData : string) (rs : list Entry.t) :
  first_line csvData <> EmptyString ->
  trim (first_line csvData) = first_line csvData ->
  App.getHeaders csvData = headers (processor_of csvData rs).
Proof.
  intros Hne Hfix.
  rewrite headers_first_line, (first_line_trim csvData Hne Hfix).
  unfold App.getHeaders. destruct csvData as [|c r]; [now elim Hne|].
  destruct (Z.eqb_spec (App.str_indexOf newline (String c r)) (-1)) as [E|E].
  - now rewrite (first_line_absent _ (str_indexOf_absent _ _ E)).
  - now rewrite (slice_to_first_line _ E), Hfix.
Qed.

Lemma getHeaders_agree_witness :
  first_line SAMPLE_CSV = "id,name,age,email,role"
  /\ App.getHeaders SAMPLE_CSV = headers (processor_of SAMPLE_CSV SAMPLE_RULES).
Proof.
  split; [reflexivity|].
  apply (getHeaders_agree SAMPLE_CSV SAMPLE_RULES);
    [vm_compute; discriminate | vm_compute; reflexivity].
Defined.

(** ** The order of the records, and a bound on the total *)

Lemma violations_cons (this : CsvProcessorJS) (row : list string)
    (recs : list (list string)) :
  violations (with_records this (row :: recs))
  = (row_violations_from this row 0 ++ violations (with_records this recs))%list.
Proof. now rewrite !violations_with_records. Qed.

Lemma counts_permutation (this : CsvProcessorJS) (c k : string)
    (recs recs' : list (list string)) :
  recs ≡ₚ recs' ->
  count_matching c k (violations (with_records this recs))
  = count_matching c k (violations (with_records this recs'))
  /\ length (violations (with_records this recs))
     = length (violations (with_records this recs')).
Proof.
  induction 1 as [|x l l' _ [IH1 IH2]|x y l|l l' l'' _ [IH1 IH2] _ [IH3 IH4]].
  - split; reflexivity.
  - rewrite !violations_cons, !count_matching_app, !length_app. split; lia.
  - rewrite !violations_cons, !count_matching_app, !length_app. split; lia.
  - split; congruence.
Qed.

(** X21: for tables with plain names, the total and the count of every
    pair do not depend on the order of the records: two tables with the
    same headers and rules whose records are a permutation of each
    other have the same counts. The examples are what the order
    decides. *)
Theorem counts_do_not_depend_on_order
    (this : CsvProcessorJS) (recs : list (list string)) (c k : string) :
  plain_names this ->
  recs ≡ₚ records this ->
  total_errors (get_error_summary (with_records this recs))
  = total_errors (get_error_summary this)
  /\ count_of (get_error_summary (with_records this recs)) c k
     = count_of (get_error_summary this) c k.
Proof.
  intros _ Hp. destruct (counts_permutation this c k _ _ Hp) as [H1 H2].
  rewrite with_records_same in H1, H2. split.
  - rewrite !get_error_summary_violations, !fold_total_errors. simpl. lia.
  - now rewrite !count_of_summary.
Qed.

Lemma counts_do_not_depend_on_order_witness :
  let this := processor_of two_rows SAMPLE_RULES in
  let swapped := [["Bob"; "24"; "bob@example.com"; "user"];
                  [EmptyString; "abc"; EmptyString; "x"]] in
  plain_names this
  /\ swapped ≡ₚ records this
  /\ total_errors (get_error_summary (with_records this swapped))
     = total_errors (get_error_summary this).
Proof.
  intros this swapped.
  assert (Hp : plain_names this) by plain_names_holds.
  assert (Hs : swapped ≡ₚ records this) by apply perm_swap.
  split; [exact Hp|]. split; [exact Hs|].
  exact (proj1 (counts_do_not_depend_on_order
                  this swapped "age" NotANumber Hp Hs)).
Defined.

Lemma length_cell_violations (this : CsvProcessorJS) (v : string) (i n : nat) :
  (forall c chain, ruleMap this !! c = Some chain -> length chain <= n) ->
  length (cell_violations this v i) <= n.
Proof.
  intros Hn. unfold cell_violations.
  destruct (ruleMap this !! header_key this i) as [chain|] eqn:E; [|simpl; lia].
  specialize (Hn _ _ E).
  assert (H : forall l : list Rule.t,
             length (omap (fun r => (fun err => (header_key this i, err, v))
                                      <$> errType r v) l) <= length l).
  { induction l as [|r l IH]; [simpl; lia|].
    cbn [omap list_omap]. destruct (errType r v); cbn [fmap option_fmap option_map length];
      lia. }
  etransitivity; [apply (H chain) | exact Hn].
Qed.

Lemma length_row_violations (this : CsvProcessorJS) (n : nat)
    (row : list string) :
  (forall c chain, ruleMap this !! c = Some chain -> length chain <= n) ->
  forall i : nat, length (row_violations_from this row i) <= n * length row.
Proof.
  intros Hn. induction row as [|v row IH]; intros i; simpl; [lia|].
  rewrite length_app. pose proof (length_cell_violations this v i n Hn).
  specialize (IH (S i)). lia.
Qed.

(** X22: a rule reports at most one kind for a cell, so that with
    chains of at most [n] rules the total is at most [n] times the
    number of cells of the records. *)
Theorem total_errors_bound (this : CsvProcessorJS) (n : nat) :
  (forall c chain, ruleMap this !! c = Some chain -> length chain <= n) ->
  total_errors (get_error_summary this)
  <= n * sum_list (length <$> records this).
Proof.
  intros Hn. rewrite get_error_summary_violations, fold_total_errors. simpl.
  unfold violations.
  induction (records this) as [|row recs IH]; [apply Nat.le_0_l|].
  rewrite fmap_cons. cbn [flat_map sum_list sum_list_with].
  rewrite length_app. pose proof (length_row_violations this n row Hn 0).
  unfold id in *. lia.
Qed.

Lemma total_errors_bound_witness :
  total_errors (get_error_summary (processor_of SAMPLE_CSV SAMPLE_RULES))
  <= 2 * sum_list (length <$> records (processor_of SAMPLE_CSV SAMPLE_RULES)).
Proof.
  apply (total_errors_bound (processor_of SAMPLE_CSV SAMPLE_RULES) 2).
  apply (bool_decide_unpack
           (map_Forall (fun (_ : string) (chain : list Rule.t) => length chain <= 2)
                       (ruleMap (processor_of SAMPLE_CSV SAMPLE_RULES)))).
  vm_compute. exact I.
Defined.
